(** * gdey/caller: the ignore-list aware stack walker

    A shallow embedding of package [caller]: the package-name parser, the frame
    source built on [runtime.Callers] / [runtime.CallersFrames], the three
    mutators of the ignore registry and the resolver [Caller].

    Go strings are byte strings, modelled by [string] (a list of [ascii]).
    [int] and [uint] are the 64-bit types of amd64/arm64, modelled by [Z]
    with the wrap-around of conversions and additions written out.  A panic
    is the [Panic] constructor of [result]; [make] refuses the lengths that
    [runtime.makeslice] refuses, and running out of memory below that limit
    is not modelled. *)

From Stdlib Require Import ZArith Lia Bool List.
From Stdlib Require Import Ascii String.
Import ListNotations.

Local Open Scope string_scope.
Local Open Scope Z_scope.

(** ** Byte strings: the pieces of package [strings] the code uses *)

Module GoString.

(** [strings.Index(s, sep)] for a one-byte separator: the index of the
    first occurrence, or -1. *)
Fixpoint Index (s : string) (sep : ascii) : Z :=
  match s with
  | EmptyString => -1
  | String b rest =>
      if Ascii.eqb b sep then 0
      else let i := Index rest sep in
           if i =? -1 then -1 else i + 1
  end.

(** [strings.LastIndex(s, sep)] for a one-byte separator: the index of
    the last occurrence, or -1. *)
Fixpoint LastIndex (s : string) (sep : ascii) : Z :=
  match s with
  | EmptyString => -1
  | String b rest =>
      let i := LastIndex rest sep in
      if i =? -1 then (if Ascii.eqb b sep then 0 else -1) else i + 1
  end.

Fixpoint drop (n : nat) (s : string) : string :=
  match n, s with
  | O, _ => s
  | S _, EmptyString => EmptyString
  | S n', String _ rest => drop n' rest
  end.

Fixpoint take (n : nat) (s : string) : string :=
  match n, s with
  | O, _ => EmptyString
  | S _, EmptyString => EmptyString
  | S n', String b rest => String b (take n' rest)
  end.

(** The slice expressions [s[i:]] and [s[:j]].  The code only evaluates
    them with [0 <= i, j <= len(s)], where Go does not panic. *)
Definition slice_from (s : string) (i : Z) : string := drop (Z.to_nat i) s.
Definition slice_to (s : string) (j : Z) : string := take (Z.to_nat j) s.

(** Whether byte [b] occurs in [s]. *)
Fixpoint has_byte (b : ascii) (s : string) : bool :=
  match s with
  | EmptyString => false
  | String a rest => Ascii.eqb a b || has_byte b rest
  end.

End GoString.
Import GoString.

Definition slash : ascii := "/"%char.
Definition dot : ascii := "."%char.

(** [PackageName] (lines 23-38). *)
Definition PackageName (fullFuncName : string) : string :=
  let slashIndex := LastIndex fullFuncName slash in
  let slashIndex := if slashIndex =? -1 then 0 else slashIndex in
  let dotIndex := Index (slice_from fullFuncName slashIndex) dot in
  if dotIndex =? -1 then ""
  else slice_to fullFuncName (slashIndex + dotIndex).

(** The four shapes of a function name, by its last slash and the first dot
    after it. *)
Inductive name_shape (s : string) : Prop :=
| shape_path pre mid post :
    s = pre ++ "/" ++ mid ++ "." ++ post ->
    has_byte slash mid = false -> has_byte dot mid = false ->
    has_byte slash post = false -> name_shape s
| shape_flat mid post :
    s = mid ++ "." ++ post ->
    has_byte slash mid = false -> has_byte dot mid = false ->
    has_byte slash post = false -> name_shape s
| shape_path_nodot pre tail :
    s = pre ++ "/" ++ tail ->
    has_byte slash tail = false -> has_byte dot tail = false -> name_shape s
| shape_flat_nodot :
    has_byte slash s = false -> has_byte dot s = false -> name_shape s.

(** ** Machine integers *)

(** [int] is 64 bits wide: a mathematical result is reduced to the signed
    range, as Go does on overflow and on the conversion [int(size)] of a
    [uint]. *)
Definition int_wrap (z : Z) : Z := (z + 2 ^ 63) mod 2 ^ 64 - 2 ^ 63.

(** ** Results and panics *)

Inductive result (A : Type) : Type :=
| Ok (a : A)
| Panic (msg : string).
Arguments Ok {A} a.
Arguments Panic {A} msg.

(** ** Frames and the frame source *)

(** [runtime.Frame], with the three fields the package and its clients read. *)
Record Frame : Type := mkFrame {
  Function : string;
  File : string;
  Line : Z
}.

(** The zero value [runtime.Frame{}]. *)
Definition zeroFrame : Frame := mkFrame "" "" 0.

(** [*runtime.Frames]: the frames still to be returned, innermost first. *)
Definition Frames : Type := list Frame.

Definition more_after (rest : Frames) : bool :=
  match rest with [] => false | _ :: _ => true end.

(** [frames.Next()]: the next frame, whether another call will return a
    valid frame, and the iterator afterwards.  Once everything has been
    returned, [Next] returns the zero frame and [false]. *)
Definition Next (frames : Frames) : Frame * bool * Frames :=
  match frames with
  | [] => (zeroFrame, false, [])
  | frame :: rest => (frame, more_after rest, rest)
  end.

(** The call stack of the goroutine at the moment [getFrames] asks the
    runtime: one entry per program counter, innermost first (entry 0 is
    [runtime.Callers] itself), each with the frames it expands to (more than
    one for inlined calls). *)
Definition Stack : Type := list (list Frame).

(** [runtime.Callers(0, pc)] with [len(pc) = len]: the number of program
    counters written, at most [len] and at most what the stack holds. *)
Definition Callers (len : Z) (st : Stack) : Z :=
  Z.min len (Z.of_nat (List.length st)).

(** [runtime.CallersFrames(pc)]. *)
Definition CallersFrames (pc : list (list Frame)) : Frames := List.concat pc.

(** The slice [pc[skip:n]] of the filled buffer. *)
Definition pc_slice (st : Stack) (skip n : Z) : list (list Frame) :=
  firstn (Z.to_nat (n - skip)) (skipn (Z.to_nat skip) st).

(** [make([]uintptr, len)] goes through [runtime.makeslice], which panics
    when [len] is negative and when [len] words of 8 bytes overflow or
    exceed [maxAlloc], 2^48 bytes on the 64-bit targets: above 2^45 words. *)
Definition max_slice_len : Z := 2 ^ 45.

(** A buffer length taken to be granted on every run: 2^20 words (8 MiB).
    Between it and [max_slice_len] it depends on the memory of the machine
    whether [make] returns; the theorems that state, for a range of depths,
    that [getFrames] or [Caller] returns keep the buffer at or below this
    length. *)
Definition granted_len : Z := 2 ^ 20.

(** [getFrames] (lines 64-79).  [make] panics as [runtime.makeslice] does
    and the slice expression [pc[skip:n]] on a negative bound. *)
Definition getFrames (num skip : Z) (st : Stack) : result Frames :=
  let len := int_wrap (num + skip) in
  if (len <? 0) || (max_slice_len <? len)
  then Panic "makeslice: len out of range"
  else
    let n := Callers len st in
    if n =? 0 then Panic "no callers"
    else if skip >=? n - 1 then Panic "not enough frames"
    else if skip <? 0 then Panic "slice bounds out of range"
    else Ok (CallersFrames (pc_slice st skip n)).

(** ** The resolver and its methods *)

Definition DefaultNumberOfFramesToGet : Z := 15.

Record ACaller : Type := mkACaller {
  numFramesToGet : Z;
  ignorePackages : list string;
  ignoreFunctions : list string
}.

(** The zero value [ACaller{}], which [var c ACaller] and [defaultCaller]
    start from. *)
Definition zeroACaller : ACaller := mkACaller 0 [] [].

(** A method body runs on its receiver variable [c]: it reads and assigns
    its fields, and returns or panics. *)
Definition M (A : Type) : Type := ACaller -> result (A * ACaller).

Definition ret {A} (a : A) : M A := fun c => Ok (a, c).

Definition bind {A B} (m : M A) (k : A -> M B) : M B :=
  fun c => match m c with
           | Ok (a, c') => k a c'
           | Panic msg => Panic msg
           end.

Definition panic {A} (msg : string) : M A := fun _ => Panic msg.

Definition get : M ACaller := fun c => Ok (c, c).

Definition put (c' : ACaller) : M unit := fun _ => Ok (tt, c').

Definition lift {A} (r : result A) : M A :=
  fun c => match r with
           | Ok a => Ok (a, c)
           | Panic msg => Panic msg
           end.

(** A method with a value receiver [(c ACaller)] runs on a copy: whatever
    the body does to its [c], the caller's resolver keeps its fields. *)
Definition by_value {A} (body : M A) : M A :=
  fun c => match body c with
           | Ok (a, _) => Ok (a, c)
           | Panic msg => Panic msg
           end.

Declare Scope go_scope.
Delimit Scope go_scope with go.
Notation "x <- m ;; k" := (bind m (fun x => k))
  (at level 61, m at next level, right associativity) : go_scope.
Notation "m ;;; k" := (bind m (fun _ => k))
  (at level 61, right associativity) : go_scope.

(** [for _, x := range xs { if s == x { return ... } }]. *)
Definition listed (s : string) (xs : list string) : bool :=
  existsb (String.eqb s) xs.

Section Resolver.

(** The package variable [ourPackageName], computed once at start-up by
    [ourPackage()]; in the published module it is
    ["github.com/gdey/caller"]. *)
Variable ourPackageName : string.

(** The loop of [IgnorePackage] (lines 108-120), returning the
    [packageName] it stops with. *)
Fixpoint IgnorePackage_loop (frames : Frames) : string :=
  match frames with
  | [] => PackageName (Function zeroFrame)
  | frame :: rest =>
      let more := more_after rest in
      let packageName := PackageName (Function frame) in
      if negb (packageName =? "")%string || negb more then
        if (packageName =? ourPackageName)%string && more
        then IgnorePackage_loop rest
        else packageName
      else IgnorePackage_loop rest
  end.

(** [IgnorePackage] (lines 101-129). *)
Definition IgnorePackage (st : Stack) : M unit :=
  (frames <- lift (getFrames 5 3 st) ;;
   let packageName := IgnorePackage_loop frames in
   if (packageName =? "")%string
   then panic "Was not able to get the package name"
   else if (packageName =? ourPackageName)%string
           || (packageName =? "runtime")%string
   then ret tt
   else
     c <- get ;;
     put (mkACaller (numFramesToGet c)
                    (ignorePackages c ++ [packageName])%list
                    (ignoreFunctions c)))%go.

(** How the loop shared by [Helper] (lines 145-169) and [IgnoreFunction]
    (lines 205-229) ends: it breaks with a frame and its package, or the
    method returns, or it panics. *)
Inductive walk_end : Type :=
| Found (frame : Frame) (packageName : string)
| Return.

Fixpoint caller_loop (frames : Frames) : result walk_end :=
  match frames with
  | [] => Panic "Was not able to get the function name ran out of frames"
  | frame :: rest =>
      let more := more_after rest in
      if (Function frame =? "")%string then
        if negb more
        then Panic "Was not able to get the function name ran out of frames"
        else caller_loop rest
      else
        let packageName := PackageName (Function frame) in
        if negb (packageName =? ourPackageName)%string
           && negb (packageName =? "runtime")%string
        then Ok (Found frame packageName)
        else if negb more then Ok Return
        else caller_loop rest
  end.

(** The checks both methods make before they append (lines 170-188 and
    231-249), for the name [fullFunctionName] to record. *)
Definition record_function (fullFunctionName packageName : string) : M unit :=
  (c <- get ;;
   if listed fullFunctionName (ignoreFunctions c) then ret tt
   else if (packageName =? ourPackageName)%string
           || (packageName =? "runtime")%string
   then ret tt
   else if listed packageName (ignorePackages c) then ret tt
   else put (mkACaller (numFramesToGet c)
                       (ignorePackages c)
                       (ignoreFunctions c ++ [fullFunctionName])%list))%go.

(** [Helper] (lines 138-189). *)
Definition Helper (st : Stack) : M unit :=
  (frames <- lift (getFrames 5 3 st) ;;
   e <- lift (caller_loop frames) ;;
   match e with
   | Return => ret tt
   | Found frame packageName => record_function (Function frame) packageName
   end)%go.

(** [IgnoreFunction] (lines 198-250). *)
Definition IgnoreFunction (name : string) (st : Stack) : M unit :=
  (frames <- lift (getFrames 5 3 st) ;;
   e <- lift (caller_loop frames) ;;
   match e with
   | Return => ret tt
   | Found _ packageName =>
       let fullFunctionName := (packageName ++ "." ++ name)%string in
       record_function fullFunctionName packageName
   end)%go.

(** [skipFrame] (lines 254-275); it only reads the resolver. *)
Definition skipFrame (c : ACaller) (frame : Frame) : bool :=
  let functionName := Function frame in
  let packageName := PackageName functionName in
  if (packageName =? "runtime")%string || (packageName =? ourPackageName)%string
  then true
  else if listed packageName (ignorePackages c) then true
  else if listed functionName (ignoreFunctions c) then true
  else false.

(** [SetNumberOfFramesToGet] (lines 278-282); [size] is a [uint]. *)
Definition SetNumberOfFramesToGet (size : Z) : M unit :=
  (if size >? DefaultNumberOfFramesToGet then
     c <- get ;;
     put (mkACaller (int_wrap size) (ignorePackages c) (ignoreFunctions c))
   else ret tt)%go.

(** [NumberOfFramesToGet] (lines 285-290), a value-receiver method. *)
Definition NumberOfFramesToGet_body : M Z :=
  (c <- get ;;
   if negb (numFramesToGet c =? 0) then ret (numFramesToGet c)
   else ret DefaultNumberOfFramesToGet)%go.

Definition NumberOfFramesToGet : M Z := by_value NumberOfFramesToGet_body.

(** The loop of [Caller] (lines 298-304), returning the frame it stops
    with. *)
Fixpoint Caller_loop (c : ACaller) (frames : Frames) : Frame :=
  match frames with
  | [] => zeroFrame
  | frame :: rest =>
      let more := more_after rest in
      if negb (skipFrame c frame) || negb more then frame
      else Caller_loop c rest
  end.

(** [Caller] (lines 294-306), a value-receiver method. *)
Definition Caller_body (st : Stack) : M Frame :=
  (num <- NumberOfFramesToGet ;;
   frames <- lift (getFrames num 4 st) ;;
   c <- get ;;
   ret (Caller_loop c frames))%go.

Definition Caller (st : Stack) : M Frame := by_value (Caller_body st).

(** *** The words of the specification *)

(** A frame is ignored when its package is the runtime package or the
    resolver's own, or is among the ignored packages, or when its
    function is among the ignored functions. *)
Definition ignored (c : ACaller) (frame : Frame) : Prop :=
  PackageName (Function frame) = "runtime"
  \/ PackageName (Function frame) = ourPackageName
  \/ In (PackageName (Function frame)) (ignorePackages c)
  \/ In (Function frame) (ignoreFunctions c).

(** The two implicitly ignored packages appear in neither list. *)
Definition implicit_only (c : ACaller) : Prop :=
  ~ In ourPackageName (ignorePackages c)
  /\ ~ In "runtime" (ignorePackages c)
  /\ forall fn, In fn (ignoreFunctions c) ->
       PackageName fn <> ourPackageName /\ PackageName fn <> "runtime".

(** What [Helper] and [IgnoreFunction] resolve as their caller on a
    stack: frames fetched with (5, 3), then the loop. *)
Definition calling_function (st : Stack) : result walk_end :=
  match getFrames 5 3 st with
  | Ok frames => caller_loop frames
  | Panic msg => Panic msg
  end.

(** The package [IgnorePackage] resolves on a stack. *)
Definition calling_package (st : Stack) : result string :=
  match getFrames 5 3 st with
  | Ok frames => Ok (IgnorePackage_loop frames)
  | Panic msg => Panic msg
  end.

End Resolver.

(** A call that returns leaves the resolver it was made on as it was. *)
Definition unchanged_by {A} (m : M A) (c : ACaller) : Prop :=
  match m c with
  | Ok (_, c') => c' = c
  | Panic _ => True
  end.

(** ** Sample stacks *)

Definition caller_pkg : string := "github.com/gdey/caller".

Definition log_pkg : string := "github.com/gdey/caller/simple/log".

(** A stack without inlining: one frame per program counter. *)
Definition stack_of (functions : list string) : Stack :=
  map (fun fn => [mkFrame fn "" 0]) functions.

(** [c.Caller()] in [callCaller], run by the test. *)
Definition test_stack : Stack :=
  stack_of [ "runtime.Callers";
             "github.com/gdey/caller.getFrames";
             "github.com/gdey/caller.ACaller.Caller";
             "github.com/gdey/caller_test.callCaller";
             "github.com/gdey/caller_test.TestCaller_Caller.func1.1";
             "testing.tRunner";
             "runtime.goexit" ].

(** [go c.Caller()]: the method runs at the bottom of a new goroutine. *)
Definition goroutine_stack : Stack :=
  stack_of [ "runtime.Callers";
             "github.com/gdey/caller.getFrames";
             "github.com/gdey/caller.ACaller.Caller";
             "main.main.gowrap1";
             "runtime.goexit" ].

(** A pointer-receiver mutator called by [log.Package], run by the test. *)
Definition log_stack (method : string) : Stack :=
  stack_of [ "runtime.Callers";
             "github.com/gdey/caller.getFrames";
             ("github.com/gdey/caller.(" ++ "*ACaller)." ++ method)%string;
             "github.com/gdey/caller/simple/log.Package";
             "github.com/gdey/caller_test.TestCaller_Caller.func1.1";
             "testing.tRunner";
             "runtime.goexit" ].

(** [IgnoreFunction] called by [Setup] of a package whose import path is
    [github]. *)
Definition github_stack : Stack :=
  stack_of [ "runtime.Callers";
             "github.com/gdey/caller.getFrames";
             ("github.com/gdey/caller.(" ++ "*ACaller).IgnoreFunction")%string;
             "github.Setup";
             "main.main";
             "runtime.main";
             "runtime.goexit" ].


(** A package-level function started with [go]: only the package and the
    runtime are on the stack. *)
Definition bottom_stack (fn : string) : Stack :=
  stack_of [ "runtime.Callers";
             "github.com/gdey/caller.getFrames";
             ("github.com/gdey/caller.(" ++ "*ACaller)." ++ fn)%string;
             ("github.com/gdey/caller." ++ fn)%string;
             "runtime.goexit" ].

(** The same below a program counter the runtime has no function for. *)
Definition unnamed_stack (fn : string) : Stack :=
  stack_of [ "runtime.Callers";
             "github.com/gdey/caller.getFrames";
             ("github.com/gdey/caller.(" ++ "*ACaller)." ++ fn)%string;
             ("github.com/gdey/caller." ++ fn)%string;
             "" ].

(** The frame of the test that runs the functions of package [log]. *)
Definition test_frame : Frame :=
  mkFrame "github.com/gdey/caller_test.TestCaller_Caller.func1.1" "" 0.

Definition log_Package_frame : Frame :=
  mkFrame "github.com/gdey/caller/simple/log.Package" "" 0.

(** ** The start-up walk *)

(** The loop of [ourPackage] (lines 50-59), returning the [packageName] it
    stops with. *)
Fixpoint ourPackage_loop (frames : Frames) : string :=
  match frames with
  | [] => PackageName (Function zeroFrame)
  | frame :: rest =>
      let more := more_after rest in
      let packageName := PackageName (Function frame) in
      if (packageName =? "")%string && more then ourPackage_loop rest
      else packageName
  end.

(** [ourPackage] (lines 41-61). *)
Definition ourPackage (st : Stack) : result string :=
  match getFrames 4 2 st with
  | Ok frames => Ok (ourPackage_loop frames)
  | Panic msg => Panic msg
  end.

(** ** Calls into the package *)

Section Calls.

Variable ourPackageName : string.

(** The frame of a function of the package, stopped at [line]. *)
Definition library_frame (name : string) (line : Z) : Frame :=
  mkFrame (ourPackageName ++ "." ++ name)%string "caller.go" line.

(** The stack [runtime.Callers] sees when [method], called by the function
    on top of [ctx], has called [getFrames] at [line]; none of the three
    calls is inlined. *)
Definition at_Callers (method : string) (line : Z) (ctx : Stack) : Stack :=
  [mkFrame "runtime.Callers" "" 0]
    :: [library_frame "getFrames" 67]
    :: [library_frame method line]
    :: ctx.

(** The four methods that walk the stack, called by the function on top of
    [ctx]. *)
Definition call_Caller (ctx : Stack) : M Frame :=
  Caller ourPackageName (at_Callers "ACaller.Caller" 297 ctx).

Definition call_Helper (ctx : Stack) : M unit :=
  Helper ourPackageName
    (at_Callers ("(" ++ "*ACaller).Helper")%string 141 ctx).

Definition call_IgnoreFunction (name : string) (ctx : Stack) : M unit :=
  IgnoreFunction ourPackageName name
    (at_Callers ("(" ++ "*ACaller).IgnoreFunction")%string 201 ctx).

Definition call_IgnorePackage (ctx : Stack) : M unit :=
  IgnorePackage ourPackageName
    (at_Callers ("(" ++ "*ACaller).IgnorePackage")%string 104 ctx).

(** What the loop of [Helper] and [IgnoreFunction] walks past: a frame
    without a function name, or of the package itself or the runtime. *)
Definition passed_over (frame : Frame) : Prop :=
  Function frame = ""%string
  \/ PackageName (Function frame) = ourPackageName
  \/ PackageName (Function frame) = "runtime".

(** What the loop of [IgnorePackage] walks past: a frame whose package does
    not parse, or of the package itself. *)
Definition package_passed_over (frame : Frame) : Prop :=
  PackageName (Function frame) = ""%string
  \/ PackageName (Function frame) = ourPackageName.

End Calls.

(** The package-level functions (lines 310-326): each calls the method of
    the same name on [defaultCaller], the resolver the computation runs
    on. *)
Module PackageLevel.
Section Default.

Variable ourPackageName : string.

Definition Caller (ctx : Stack) : M Frame :=
  call_Caller ourPackageName
    ([library_frame ourPackageName "Caller" 310] :: ctx).

Definition Helper (ctx : Stack) : M unit :=
  call_Helper ourPackageName
    ([library_frame ourPackageName "Helper" 313] :: ctx).

Definition IgnoreFunction (name : string) (ctx : Stack) : M unit :=
  call_IgnoreFunction ourPackageName name
    ([library_frame ourPackageName "IgnoreFunction" 316] :: ctx).

Definition IgnorePackage (ctx : Stack) : M unit :=
  call_IgnorePackage ourPackageName
    ([library_frame ourPackageName "IgnorePackage" 319] :: ctx).

Definition SetNumberOfFramesToGet (size : Z) : M unit :=
  SetNumberOfFramesToGet size.

Definition NumberOfFramesToGet : M Z := NumberOfFramesToGet.

End Default.
End PackageLevel.

(** Package [log] (simple/log/log.go).  It imports
    [github.com/gdey/caller]; each exported function works on its own
    [var c MyCaller], and is given here with the resolver [c] holds when
    the function returns. *)
Module Log.

Definition log_frame (fn : string) (line : Z) : Frame :=
  mkFrame (log_pkg ++ "." ++ fn)%string "log.go" line.

(** [notInIgnore] (line 13) and [Double] (line 14), value-receiver
    methods of [MyCaller]. *)
Definition notInIgnore (ctx : Stack) : M Frame :=
  by_value
    (call_Caller caller_pkg ([log_frame "MyCaller.notInIgnore" 13] :: ctx)).

Definition Double (ctx : Stack) : M Frame :=
  by_value (notInIgnore ([log_frame "MyCaller.Double" 14] :: ctx)).

(** [Caller] (lines 16-20). *)
Definition Caller (ctx : Stack) : result (Frame * ACaller) :=
  (call_Helper caller_pkg ([log_frame "Caller" 18] :: ctx) ;;;
   notInIgnore ([log_frame "Caller" 19] :: ctx))%go zeroACaller.

(** [NotInIgnore] (lines 22-25). *)
Definition NotInIgnore (ctx : Stack) : result (Frame * ACaller) :=
  notInIgnore ([log_frame "NotInIgnore" 24] :: ctx) zeroACaller.

(** [Package] (lines 27-31). *)
Definition Package (ctx : Stack) : result (Frame * ACaller) :=
  (call_IgnorePackage caller_pkg ([log_frame "Package" 29] :: ctx) ;;;
   Double ([log_frame "Package" 30] :: ctx))%go zeroACaller.

(** [PackageHelper] (lines 32-40). *)
Definition PackageHelper (ctx : Stack) : result (Frame * ACaller) :=
  (call_IgnorePackage caller_pkg ([log_frame "PackageHelper" 35] :: ctx) ;;;
   call_Helper caller_pkg ([log_frame "PackageHelper" 38] :: ctx) ;;;
   Double ([log_frame "PackageHelper" 39] :: ctx))%go zeroACaller.

(** [HelperPackage] (lines 42-53). *)
Definition HelperPackage (ctx : Stack) : result (Frame * ACaller) :=
  (call_Helper caller_pkg ([log_frame "HelperPackage" 45] :: ctx) ;;;
   call_IgnorePackage caller_pkg ([log_frame "HelperPackage" 51] :: ctx) ;;;
   Double ([log_frame "HelperPackage" 52] :: ctx))%go zeroACaller.

End Log.

(** The example of the README (example_embed_test.go), package
    [caller_test]: a [Log] that embeds the resolver.  [log] prints the file
    and line of the frame [Caller] returns; here it returns that frame. *)
Module Example.

Definition test_pkg : string := "github.com/gdey/caller_test".

Definition example_frame (fn : string) (line : Z) : Frame :=
  mkFrame (test_pkg ++ "." ++ fn)%string "example_embed_test.go" line.

(** [Init] (lines 14-18 of the example), a pointer-receiver method. *)
Definition Init (ctx : Stack) : M unit :=
  (call_IgnoreFunction caller_pkg "Log.Info"
     ([example_frame ("(" ++ "*Log).Init") 16] :: ctx) ;;;
   call_IgnoreFunction caller_pkg "Log.log"
     ([example_frame ("(" ++ "*Log).Init") 17] :: ctx))%go.

(** [log] (lines 20-31) and [Info] (lines 48-50), value-receiver
    methods. *)
Definition log (ctx : Stack) : M Frame :=
  by_value (call_Caller caller_pkg ([example_frame "Log.log" 21] :: ctx)).

Definition Info (ctx : Stack) : M Frame :=
  by_value (log ([example_frame "Log.Info" 49] :: ctx)).

(** [FatalInfo] (lines 33-38) and [DoubleMessageInfo] (lines 42-45); both
    take the [Log] by value. *)
Definition FatalInfo (ctx : Stack) : M Frame :=
  by_value
    (call_Helper caller_pkg ([example_frame "FatalInfo" 35] :: ctx) ;;;
     Info ([example_frame "FatalInfo" 36] :: ctx))%go.

Definition DoubleMessageInfo (ctx : Stack) : M Frame :=
  by_value (Info ([example_frame "DoubleMessageInfo" 43] :: ctx)).

(** [ExampleCaller] (lines 52-68): the frames behind its three messages,
    and the resolver of [l] at the end. *)
Definition ExampleCaller (ctx : Stack) : result (list Frame * ACaller) :=
  (Init ([example_frame "ExampleCaller" 54] :: ctx) ;;;
   call_IgnoreFunction caller_pkg "DoubleMessageInfo"
     ([example_frame "ExampleCaller" 58] :: ctx) ;;;
   first <- Info ([example_frame "ExampleCaller" 59] :: ctx) ;;
   second <- DoubleMessageInfo ([example_frame "ExampleCaller" 60] :: ctx) ;;
   third <- FatalInfo ([example_frame "ExampleCaller" 61] :: ctx) ;;
   ret [first; second; third])%go zeroACaller.

End Example.

(** ** Facts about the string primitives *)

Lemma Index_range s sep : -1 <= Index s sep < Z.of_nat (String.length s).
Proof.
  induction s as [|b rest IH]; simpl; [lia|].
  destruct (Ascii.eqb b sep); [lia|].
  destruct (Index rest sep =? -1) eqn:E; lia.
Qed.

Lemma LastIndex_range s sep :
  -1 <= LastIndex s sep < Z.of_nat (String.length s).
Proof.
  induction s as [|b rest IH]; simpl; [lia|].
  destruct (LastIndex rest sep =? -1) eqn:E.
  - destruct (Ascii.eqb b sep); lia.
  - lia.
Qed.

Lemma has_byte_app b s t : has_byte b (s ++ t) = has_byte b s || has_byte b t.
Proof.
  induction s as [|a rest IH]; simpl; [reflexivity|].
  rewrite IH. now rewrite orb_assoc.
Qed.

Lemma Index_absent s sep : has_byte sep s = false -> Index s sep = -1.
Proof.
  induction s as [|b rest IH]; simpl; [reflexivity|].
  intros H. apply orb_false_iff in H as [Hb Hr].
  rewrite Hb, (IH Hr). reflexivity.
Qed.

Lemma LastIndex_absent s sep : has_byte sep s = false -> LastIndex s sep = -1.
Proof.
  induction s as [|b rest IH]; simpl; [reflexivity|].
  intros H. apply orb_false_iff in H as [Hb Hr].
  rewrite (IH Hr), Hb. reflexivity.
Qed.

(** The first occurrence: a clean prefix followed by the separator. *)
Lemma Index_first mid post sep :
  has_byte sep mid = false ->
  Index (mid ++ String sep post) sep = Z.of_nat (String.length mid).
Proof.
  induction mid as [|b rest IH]; simpl.
  - intros _. now rewrite Ascii.eqb_refl.
  - intros H. apply orb_false_iff in H as [Hb Hr].
    rewrite Hb, (IH Hr).
    destruct (Z.of_nat (String.length rest) =? -1) eqn:E; lia.
Qed.

(** The last occurrence: the separator followed by a clean suffix. *)
Lemma LastIndex_last pre tail sep :
  has_byte sep tail = false ->
  LastIndex (pre ++ String sep tail) sep = Z.of_nat (String.length pre).
Proof.
  intros Ht.
  induction pre as [|b rest IH]; simpl.
  - rewrite (LastIndex_absent _ _ Ht). simpl. now rewrite Ascii.eqb_refl.
  - rewrite IH.
    destruct (Z.of_nat (String.length rest) =? -1) eqn:E; lia.
Qed.

Lemma drop_app_length pre s : drop (String.length pre) (pre ++ s) = s.
Proof. induction pre; simpl; auto. Qed.

Lemma take_app_length pre s : take (String.length pre) (pre ++ s) = pre.
Proof. induction pre; simpl; [now destruct s | now f_equal]. Qed.

Lemma slice_from_app pre s :
  slice_from (pre ++ s) (Z.of_nat (String.length pre)) = s.
Proof. unfold slice_from. rewrite Nat2Z.id. apply drop_app_length. Qed.

Lemma slice_to_app pre s :
  slice_to (pre ++ s) (Z.of_nat (String.length pre)) = pre.
Proof. unfold slice_to. rewrite Nat2Z.id. apply take_app_length. Qed.

Lemma length_app s t :
  String.length (s ++ t) = (String.length s + String.length t)%nat.
Proof. induction s; simpl; auto. Qed.

Lemma app_assoc_str (s t u : string) : (s ++ t) ++ u = s ++ (t ++ u).
Proof. induction s; simpl; [reflexivity | now f_equal]. Qed.

(** A length is never the "not found" result. *)
Ltac length_found :=
  match goal with
  | |- context [Z.of_nat ?n =? -1] =>
      replace (Z.of_nat n =? -1) with false
        by (symmetry; apply Z.eqb_neq; lia)
  end.

(** ** PackageName on decomposed names *)

(** A name with a path: [pre/mid.post], where [mid] is the last path
    element up to its first dot. *)
Lemma PackageName_path pre mid post :
  has_byte slash mid = false -> has_byte dot mid = false ->
  has_byte slash post = false ->
  PackageName (pre ++ String slash (mid ++ String dot post))
  = pre ++ String slash mid.
Proof.
  intros Hsm Hdm Hsp. unfold PackageName.
  assert (Ht : has_byte slash (mid ++ String dot post) = false).
  { rewrite has_byte_app, Hsm. simpl. exact Hsp. }
  cbv zeta. rewrite (LastIndex_last pre _ slash Ht).
  length_found.
  rewrite slice_from_app.
  change (String slash (mid ++ String dot post))
    with (String slash mid ++ String dot post).
  assert (Hd : has_byte dot (String slash mid) = false) by (simpl; exact Hdm).
  rewrite (Index_first _ post dot Hd).
  length_found.
  rewrite <- Nat2Z.inj_add, <- length_app, <- app_assoc_str.
  apply slice_to_app.
Qed.

(** A flat name: [mid.post] without any slash. *)
Lemma PackageName_flat mid post :
  has_byte slash mid = false -> has_byte dot mid = false ->
  has_byte slash post = false ->
  PackageName (mid ++ String dot post) = mid.
Proof.
  intros Hsm Hdm Hsp. unfold PackageName.
  assert (Ht : has_byte slash (mid ++ String dot post) = false).
  { rewrite has_byte_app, Hsm. simpl. exact Hsp. }
  cbv zeta. rewrite (LastIndex_absent _ _ Ht).
  change (-1 =? -1) with true. cbv iota.
  change (slice_from (mid ++ String dot post) 0) with (mid ++ String dot post).
  rewrite (Index_first _ post dot Hdm).
  length_found.
  rewrite Z.add_0_l. apply slice_to_app.
Qed.

(** No dot at or after the last slash: nothing can be parsed. *)
Lemma PackageName_path_nodot pre tail :
  has_byte slash tail = false -> has_byte dot tail = false ->
  PackageName (pre ++ String slash tail) = "".
Proof.
  intros Hs Hd. unfold PackageName.
  cbv zeta. rewrite (LastIndex_last pre _ slash Hs).
  length_found.
  rewrite slice_from_app.
  assert (Hd' : has_byte dot (String slash tail) = false) by (simpl; exact Hd).
  now rewrite (Index_absent _ _ Hd').
Qed.

Lemma PackageName_flat_nodot s :
  has_byte slash s = false -> has_byte dot s = false ->
  PackageName s = "".
Proof.
  intros Hs Hd. unfold PackageName.
  cbv zeta. rewrite (LastIndex_absent _ _ Hs).
  change (-1 =? -1) with true. cbv iota.
  change (slice_from s 0) with s.
  now rewrite (Index_absent _ _ Hd).
Qed.

Lemma drop_length n s :
  String.length (drop n s) = (String.length s - n)%nat.
Proof.
  revert s. induction n as [|n IH]; intros s; simpl.
  - now rewrite Nat.sub_0_r.
  - destruct s as [|b rest]; simpl; [reflexivity | apply IH].
Qed.

(** The two slice expressions of [PackageName] stay within the string, so
    they never panic. *)
Lemma PackageName_slices_in_range s :
  let slashIndex :=
    if LastIndex s slash =? -1 then 0 else LastIndex s slash in
  let dotIndex := Index (slice_from s slashIndex) dot in
  0 <= slashIndex <= Z.of_nat (String.length s)
  /\ (dotIndex <> -1 ->
      0 <= slashIndex + dotIndex <= Z.of_nat (String.length s)).
Proof.
  intros slashIndex dotIndex.
  pose proof (LastIndex_range s slash) as Hl.
  assert (Hs : 0 <= slashIndex <= Z.of_nat (String.length s)).
  { unfold slashIndex. destruct (LastIndex s slash =? -1) eqn:E.
    - lia.
    - apply Z.eqb_neq in E. lia. }
  split; [exact Hs|]. intros Hd.
  pose proof (Index_range (slice_from s slashIndex) dot) as Hi.
  fold dotIndex in Hi. unfold slice_from in Hi.
  rewrite drop_length in Hi. lia.
Qed.

(** ** The shape of a name *)

(** A string either lacks the separator or splits at its last occurrence. *)
Lemma split_last sep s :
  has_byte sep s = false
  \/ exists pre tail, s = pre ++ String sep tail /\ has_byte sep tail = false.
Proof.
  induction s as [|b rest IH]; [now left|].
  destruct IH as [Hno | (pre & tail & -> & Ht)].
  - simpl. destruct (Ascii.eqb b sep) eqn:E.
    + right. exists "", rest. apply Ascii.eqb_eq in E. now subst.
    + now left.
  - right. exists (String b pre), tail. now split.
Qed.

(** A string either lacks the separator or splits at its first occurrence. *)
Lemma split_first sep s :
  has_byte sep s = false
  \/ exists mid post, s = mid ++ String sep post /\ has_byte sep mid = false.
Proof.
  induction s as [|b rest IH]; [now left|].
  simpl. destruct (Ascii.eqb b sep) eqn:E.
  - right. exists "", rest. apply Ascii.eqb_eq in E. now subst.
  - destruct IH as [Hno | (mid & post & -> & Hm)].
    + now left.
    + right. exists (String b mid), post. simpl. now rewrite E.
Qed.

Lemma name_shape_total s : name_shape s.
Proof.
  destruct (split_last slash s) as [Hs | (pre & tail & -> & Ht)].
  - destruct (split_first dot s) as [Hd | (mid & post & -> & Hm)].
    + now apply shape_flat_nodot.
    + rewrite has_byte_app in Hs. apply orb_false_iff in Hs as [Hs1 Hs2].
      simpl in Hs2. now apply (shape_flat _ mid post).
  - destruct (split_first dot tail) as [Hd | (mid & post & -> & Hm)].
    + now apply (shape_path_nodot _ pre tail).
    + rewrite has_byte_app in Ht. apply orb_false_iff in Ht as [Ht1 Ht2].
      simpl in Ht2. now apply (shape_path _ pre mid post).
Qed.

(** Qualifying a bare name with a parsed package gives that package back. *)
Lemma PackageName_qualified fn name :
  has_byte slash name = false ->
  PackageName (PackageName fn ++ "." ++ name) = PackageName fn.
Proof.
  intros Hn.
  destruct (name_shape_total fn)
    as [pre mid post -> Hsm Hdm Hsp | mid post -> Hsm Hdm Hsp
       | pre tail -> Hs Hd | Hs Hd].
  - change (pre ++ "/" ++ mid ++ "." ++ post)
      with (pre ++ String slash (mid ++ String dot post)).
    rewrite (PackageName_path pre mid post Hsm Hdm Hsp).
    change ((pre ++ String slash mid) ++ "." ++ name)
      with ((pre ++ String slash mid) ++ String dot name).
    rewrite app_assoc_str.
    change (String slash mid ++ String dot name)
      with (String slash (mid ++ String dot name)).
    now apply PackageName_path.
  - change (mid ++ "." ++ post) with (mid ++ String dot post).
    rewrite (PackageName_flat mid post Hsm Hdm Hsp).
    now apply (PackageName_flat mid name).
  - change (pre ++ "/" ++ tail) with (pre ++ String slash tail).
    rewrite (PackageName_path_nodot pre tail Hs Hd).
    now apply (PackageName_flat "" name).
  - rewrite (PackageName_flat_nodot fn Hs Hd).
    now apply (PackageName_flat "" name).
Qed.

(** ** C4: the package name parser *)

(** C4. [PackageName] returns everything before the first dot at or after
    the last slash, or before the first dot of the whole string when there
    is no slash, and the empty string when that search finds no dot; every
    string has one of these four shapes.  In particular it maps
    [group/sub.Type.Method] to [group/sub], [runtime.Caller] to [runtime],
    [Caller] to the empty string and [gdey/caller.Foo] to [gdey/caller]. *)
Theorem PackageName_spec :
  (forall pre mid post,
      has_byte slash mid = false -> has_byte dot mid = false ->
      has_byte slash post = false ->
      PackageName (pre ++ "/" ++ mid ++ "." ++ post) = pre ++ "/" ++ mid)
  /\ (forall mid post,
         has_byte slash mid = false -> has_byte dot mid = false ->
         has_byte slash post = false ->
         PackageName (mid ++ "." ++ post) = mid)
  /\ (forall pre tail,
         has_byte slash tail = false -> has_byte dot tail = false ->
         PackageName (pre ++ "/" ++ tail) = "")
  /\ (forall s,
         has_byte slash s = false -> has_byte dot s = false ->
         PackageName s = "")
  /\ (forall s, name_shape s)
  /\ PackageName "group/sub.Type.Method" = "group/sub"
  /\ PackageName "runtime.Caller" = "runtime"
  /\ PackageName "Caller" = ""
  /\ PackageName "gdey/caller.Foo" = "gdey/caller".
Proof.
  split; [exact PackageName_path|].
  split; [exact PackageName_flat|].
  split; [exact PackageName_path_nodot|].
  split; [exact PackageName_flat_nodot|].
  split; [exact name_shape_total|].
  repeat split; reflexivity.
Qed.

Lemma PackageName_spec_witness :
  PackageName "github.com/gdey/caller_test.TestCaller_Caller.func1.10"
  = "github.com/gdey/caller_test".
Proof.
  exact (proj1 PackageName_spec "github.com/gdey" "caller_test"
           "TestCaller_Caller.func1.10" eq_refl eq_refl eq_refl).
Defined.

(** ** The frame source *)

Local Open Scope list_scope.

Lemma int_wrap_small z : - 2 ^ 63 <= z < 2 ^ 63 -> int_wrap z = z.
Proof.
  intros H. unfold int_wrap.
  rewrite Z.mod_small by lia. lia.
Qed.

Lemma int_wrap_range z : - 2 ^ 63 <= int_wrap z < 2 ^ 63.
Proof.
  unfold int_wrap.
  pose proof (Z.mod_pos_bound (z + 2 ^ 63) (2 ^ 64) ltac:(lia)). lia.
Qed.

(** With valid counts, [getFrames] is decided by the number [n] of program
    counters written. *)
Lemma getFrames_cases num skip st :
  0 <= skip -> 0 <= num + skip <= 2 ^ 45 ->
  let n := Callers (num + skip) st in
  getFrames num skip st =
    if n =? 0 then Panic "no callers"
    else if skip >=? n - 1 then Panic "not enough frames"
    else Ok (CallersFrames (pc_slice st skip n)).
Proof.
  intros Hs Hlen n. unfold getFrames, max_slice_len.
  rewrite int_wrap_small by lia.
  destruct (num + skip <? 0) eqn:E; [apply Z.ltb_lt in E; lia|].
  destruct (2 ^ 45 <? num + skip) eqn:E'; [apply Z.ltb_lt in E'; lia|].
  cbn [orb]. fold n. destruct (n =? 0); [reflexivity|].
  destruct (skip >=? n - 1); [reflexivity|].
  destruct (skip <? 0) eqn:E2; [apply Z.ltb_lt in E2; lia|reflexivity].
Qed.

(** ** Membership tests *)

Lemma listed_In s xs : listed s xs = true <-> In s xs.
Proof.
  unfold listed. rewrite existsb_exists. split.
  - intros (x & Hin & Heq). apply String.eqb_eq in Heq. now subst.
  - intros Hin. exists s. split; [assumption | apply String.eqb_refl].
Qed.

Lemma listed_not_In s xs : listed s xs = false <-> ~ In s xs.
Proof.
  rewrite <- listed_In. destruct (listed s xs); split; intros H;
    try discriminate; try reflexivity; try (intro; discriminate).
  exfalso. now apply H.
Qed.

Lemma listed_app s xs ys : listed s (xs ++ ys) = listed s xs || listed s ys.
Proof. unfold listed. apply existsb_app. Qed.

Section ResolverFacts.

Variable our : string.

(** [skipFrame] decides [ignored]. *)
Lemma skipFrame_ignored c frame :
  skipFrame our c frame = true <-> ignored our c frame.
Proof.
  unfold skipFrame, ignored.
  destruct (PackageName (Function frame) =? "runtime")%string eqn:Er.
  { apply String.eqb_eq in Er. simpl. tauto. }
  destruct (PackageName (Function frame) =? our)%string eqn:Eo.
  { apply String.eqb_eq in Eo. simpl. tauto. }
  apply String.eqb_neq in Er, Eo. simpl.
  destruct (listed (PackageName (Function frame)) (ignorePackages c)) eqn:Ep.
  { apply listed_In in Ep. tauto. }
  apply listed_not_In in Ep.
  destruct (listed (Function frame) (ignoreFunctions c)) eqn:Ef.
  { apply listed_In in Ef. tauto. }
  apply listed_not_In in Ef.
  split; [discriminate | tauto].
Qed.

Lemma skipFrame_not_ignored c frame :
  skipFrame our c frame = false <-> ~ ignored our c frame.
Proof.
  rewrite <- skipFrame_ignored.
  destruct (skipFrame our c frame); split; intros H;
    try discriminate; try reflexivity; try (intro; discriminate).
  exfalso. now apply H.
Qed.

(** One turn of the loop of [Caller], written with [Next]. *)
Lemma Caller_loop_Next c frames :
  Caller_loop our c frames =
    let '(frame, more, frames') := Next frames in
    if negb (skipFrame our c frame) || negb more then frame
    else Caller_loop our c frames'.
Proof.
  destruct frames as [|frame rest]; [|reflexivity].
  simpl. now rewrite orb_true_r.
Qed.

(** One turn of the loop of [IgnorePackage], written with [Next]. *)
Lemma IgnorePackage_loop_Next frames :
  IgnorePackage_loop our frames =
    let '(frame, more, frames') := Next frames in
    let packageName := PackageName (Function frame) in
    if negb (packageName =? "")%string || negb more then
      if (packageName =? our)%string && more
      then IgnorePackage_loop our frames'
      else packageName
    else IgnorePackage_loop our frames'.
Proof.
  destruct frames as [|frame rest]; [|reflexivity].
  cbn [Next]. cbv zeta. cbn [negb]. now rewrite orb_true_r, andb_false_r.
Qed.

(** One turn of the loop of [Helper] and [IgnoreFunction], written with
    [Next]. *)
Lemma caller_loop_Next frames :
  caller_loop our frames =
    let '(frame, more, frames') := Next frames in
    if (Function frame =? "")%string then
      if negb more
      then Panic "Was not able to get the function name ran out of frames"
      else caller_loop our frames'
    else
      let packageName := PackageName (Function frame) in
      if negb (packageName =? our)%string
         && negb (packageName =? "runtime")%string
      then Ok (Found frame packageName)
      else if negb more then Ok Return
      else caller_loop our frames'.
Proof. destruct frames as [|frame rest]; reflexivity. Qed.

(** The loop stops at the first frame that is not ignored. *)
Lemma Caller_loop_first c pre frame post :
  Forall (ignored our c) pre -> ~ ignored our c frame ->
  Caller_loop our c (pre ++ frame :: post) = frame.
Proof.
  intros Hpre Hf. induction Hpre as [|x pre Hx _ IH]; simpl.
  - apply skipFrame_not_ignored in Hf. now rewrite Hf.
  - apply skipFrame_ignored in Hx. rewrite Hx. simpl.
    destruct (pre ++ frame :: post) eqn:E.
    + now destruct pre.
    + exact IH.
Qed.

(** When every frame is ignored it stops at the last one. *)
Lemma Caller_loop_last c frames :
  Forall (ignored our c) frames ->
  Caller_loop our c frames = last frames zeroFrame.
Proof.
  intros H. induction H as [|x rest Hx _ IH]; [reflexivity|].
  apply skipFrame_ignored in Hx.
  cbn [Caller_loop]. rewrite Hx. cbn [negb orb].
  destruct rest as [|y rest']; [reflexivity|].
  cbn [more_after negb]. rewrite IH. reflexivity.
Qed.

(** Every frame sequence splits at its first frame that is not ignored,
    unless all of it is ignored. *)
Lemma first_not_ignored c frames :
  Forall (ignored our c) frames
  \/ exists pre frame post,
       frames = (pre ++ frame :: post)%list
       /\ Forall (ignored our c) pre /\ ~ ignored our c frame.
Proof.
  induction frames as [|x rest IH].
  - left. constructor.
  - destruct (skipFrame our c x) eqn:E.
    + apply skipFrame_ignored in E.
      destruct IH as [IH | (pre & f & post & -> & Hpre & Hf)].
      * left. now constructor.
      * right. exists (x :: pre), f, post. repeat split; auto.
    + apply skipFrame_not_ignored in E.
      right. exists [], x, rest. repeat split; auto.
Qed.

Lemma NumberOfFramesToGet_run c :
  NumberOfFramesToGet c =
    Ok (if negb (numFramesToGet c =? 0) then numFramesToGet c
        else DefaultNumberOfFramesToGet, c).
Proof.
  unfold NumberOfFramesToGet, by_value, NumberOfFramesToGet_body, bind, get.
  destruct (negb (numFramesToGet c =? 0)); reflexivity.
Qed.

(** [Caller] is the frame source followed by the loop. *)
Lemma Caller_run c st num :
  NumberOfFramesToGet c = Ok (num, c) ->
  Caller our st c =
    match getFrames num 4 st with
    | Ok frames => Ok (Caller_loop our c frames, c)
    | Panic msg => Panic msg
    end.
Proof.
  intros Hn. unfold Caller, by_value, Caller_body, bind.
  rewrite Hn. unfold lift.
  destruct (getFrames num 4 st); reflexivity.
Qed.

(** ** C1: what Caller returns *)

(** C1. [Caller] fetches [NumberOfFramesToGet()] frames skipping 4 and,
    whatever the resolver and the captured frame sequence, returns the
    first frame that is not ignored, or the last frame of the sequence
    when all of them are ignored; a frame is skipped exactly when its
    package is the runtime package or the resolver's own, or is in
    [ignorePackages], or its function is in [ignoreFunctions]. *)
Theorem Caller_first_not_ignored c st num frames :
  NumberOfFramesToGet c = Ok (num, c) ->
  getFrames num 4 st = Ok frames ->
  (forall frame, skipFrame our c frame = true <-> ignored our c frame)
  /\ exists frame,
       Caller our st c = Ok (frame, c)
       /\ ((exists pre post,
              frames = (pre ++ frame :: post)%list
              /\ Forall (ignored our c) pre /\ ~ ignored our c frame)
           \/ (Forall (ignored our c) frames
               /\ frame = last frames zeroFrame)).
Proof.
  intros Hn Hf. split; [apply skipFrame_ignored|].
  rewrite (Caller_run c st num Hn), Hf.
  destruct (first_not_ignored c frames)
    as [Hall | (pre & f & post & -> & Hpre & Hnot)].
  - exists (last frames zeroFrame). split.
    + now rewrite Caller_loop_last.
    + right. split; [assumption | reflexivity].
  - exists f. split.
    + now rewrite Caller_loop_first.
    + left. exists pre, post. repeat split; assumption.
Qed.

(** ** The mutators, step by step *)

(** What the loop of [Helper] and [IgnoreFunction] breaks with. *)
Lemma caller_loop_found frames frame p :
  caller_loop our frames = Ok (Found frame p) ->
  p = PackageName (Function frame) /\ p <> our /\ p <> "runtime"
  /\ Function frame <> ""%string.
Proof.
  induction frames as [|x rest IH]; simpl; [discriminate|].
  destruct (Function x =? "")%string eqn:Ee.
  - destruct (negb (more_after rest)); [discriminate | exact IH].
  - destruct (negb (PackageName (Function x) =? our)%string
              && negb (PackageName (Function x) =? "runtime")%string) eqn:Ep.
    + intros H. inversion H; subst.
      apply andb_true_iff in Ep as [E1 E2].
      apply negb_true_iff in E1, E2.
      apply String.eqb_neq in E1, E2, Ee. auto.
    + destruct (negb (more_after rest)); [discriminate | exact IH].
Qed.

Lemma calling_function_found st frame p :
  calling_function our st = Ok (Found frame p) ->
  p = PackageName (Function frame) /\ p <> our /\ p <> "runtime"
  /\ Function frame <> ""%string.
Proof.
  unfold calling_function. destruct (getFrames 5 3 st); [|discriminate].
  apply caller_loop_found.
Qed.

Lemma record_function_run full p c :
  record_function our full p c =
    if listed full (ignoreFunctions c) then Ok (tt, c)
    else if (p =? our)%string || (p =? "runtime")%string then Ok (tt, c)
    else if listed p (ignorePackages c) then Ok (tt, c)
    else Ok (tt, mkACaller (numFramesToGet c) (ignorePackages c)
                           (ignoreFunctions c ++ [full])).
Proof.
  unfold record_function, bind, get. 
  destruct (listed full (ignoreFunctions c)); [reflexivity|].
  destruct ((p =? our)%string || (p =? "runtime")%string); [reflexivity|].
  destruct (listed p (ignorePackages c)); reflexivity.
Qed.

Lemma Helper_run st c :
  Helper our st c =
    match calling_function our st with
    | Ok (Found frame p) => record_function our (Function frame) p c
    | Ok Return => Ok (tt, c)
    | Panic msg => Panic msg
    end.
Proof.
  unfold Helper, calling_function, bind, lift.
  destruct (getFrames 5 3 st) as [frames|]; [|reflexivity].
  destruct (caller_loop our frames) as [[frame p|]|]; reflexivity.
Qed.

Lemma IgnoreFunction_run name st c :
  IgnoreFunction our name st c =
    match calling_function our st with
    | Ok (Found _ p) => record_function our (p ++ "." ++ name)%string p c
    | Ok Return => Ok (tt, c)
    | Panic msg => Panic msg
    end.
Proof.
  unfold IgnoreFunction, calling_function, bind, lift.
  destruct (getFrames 5 3 st) as [frames|]; [|reflexivity].
  destruct (caller_loop our frames) as [[frame p|]|]; reflexivity.
Qed.

Lemma IgnorePackage_run st c :
  IgnorePackage our st c =
    match calling_package our st with
    | Ok p =>
        if (p =? "")%string
        then Panic "Was not able to get the package name"
        else if (p =? our)%string || (p =? "runtime")%string then Ok (tt, c)
        else Ok (tt, mkACaller (numFramesToGet c) (ignorePackages c ++ [p])
                               (ignoreFunctions c))
    | Panic msg => Panic msg
    end.
Proof.
  unfold IgnorePackage, calling_package, bind, lift.
  destruct (getFrames 5 3 st) as [frames|]; [|reflexivity].
  destruct (IgnorePackage_loop our frames =? "")%string; [reflexivity|].
  destruct ((IgnorePackage_loop our frames =? our)%string
            || (IgnorePackage_loop our frames =? "runtime")%string);
    reflexivity.
Qed.

(** A name already in the list is not recorded again. *)
Lemma record_function_listed full p c :
  In full (ignoreFunctions c) -> record_function our full p c = Ok (tt, c).
Proof.
  intros H. rewrite record_function_run.
  apply listed_In in H. now rewrite H.
Qed.

(** Nor is a function of a package that is ignored as a whole. *)
Lemma record_function_subsumed full p c :
  In p (ignorePackages c) -> record_function our full p c = Ok (tt, c).
Proof.
  intros H. rewrite record_function_run.
  apply listed_In in H. rewrite H.
  destruct (listed full (ignoreFunctions c)); [reflexivity|].
  destruct ((p =? our)%string || (p =? "runtime")%string); reflexivity.
Qed.

(** Recording once and recording again: the second time changes nothing,
    and the first adds at most the one entry, when it was absent. *)
Lemma record_function_twice full p c :
  exists c1,
    record_function our full p c = Ok (tt, c1)
    /\ record_function our full p c1 = Ok (tt, c1)
    /\ numFramesToGet c1 = numFramesToGet c
    /\ ignorePackages c1 = ignorePackages c
    /\ (ignoreFunctions c1 = ignoreFunctions c
        \/ (~ In full (ignoreFunctions c)
            /\ ignoreFunctions c1 = ignoreFunctions c ++ [full])).
Proof.
  rewrite record_function_run.
  destruct (listed full (ignoreFunctions c)) eqn:El.
  { exists c. rewrite record_function_run, El. auto 6. }
  destruct ((p =? our)%string || (p =? "runtime")%string) eqn:Ei.
  { exists c. rewrite record_function_run, El, Ei. auto 6. }
  destruct (listed p (ignorePackages c)) eqn:Ep.
  { exists c. rewrite record_function_run, El, Ei, Ep. auto 6. }
  eexists. split; [reflexivity|]. split.
  - apply record_function_listed. simpl. apply in_or_app. right. now left.
  - simpl. repeat split. right. split; [now apply listed_not_In | reflexivity].
Qed.

Lemma count_occ_snoc_absent (xs : list string) x :
  ~ In x xs -> count_occ string_dec (xs ++ [x]) x = 1%nat.
Proof.
  intros H. rewrite count_occ_app.
  apply (count_occ_not_In string_dec) in H. rewrite H. simpl.
  destruct (string_dec x x); [reflexivity | contradiction].
Qed.

(** ** C5: registering a function twice *)

(** What recording does, case by case: nothing when the name is listed or
    its package ignored, and otherwise one entry appended. *)
Lemma record_function_outcome full p c :
  p <> our -> p <> "runtime" ->
  exists c1,
    record_function our full p c = Ok (tt, c1)
    /\ record_function our full p c1 = Ok (tt, c1)
    /\ (In full (ignoreFunctions c) \/ In p (ignorePackages c) -> c1 = c)
    /\ (~ In full (ignoreFunctions c) -> ~ In p (ignorePackages c) ->
        c1 = mkACaller (numFramesToGet c) (ignorePackages c)
                       (ignoreFunctions c ++ [full])
        /\ count_occ string_dec (ignoreFunctions c1) full = 1%nat).
Proof.
  intros Ho Hr. apply String.eqb_neq in Ho, Hr.
  rewrite record_function_run, Ho, Hr. cbn [orb].
  destruct (listed full (ignoreFunctions c)) eqn:El.
  { exists c. rewrite record_function_run, El.
    apply listed_In in El. repeat split; auto; contradiction. }
  destruct (listed p (ignorePackages c)) eqn:Ep.
  { exists c. rewrite record_function_run, El, Ho, Hr, Ep.
    apply listed_In in Ep. repeat split; auto; contradiction. }
  apply listed_not_In in El, Ep.
  eexists. split; [reflexivity|]. split; [|split].
  - apply record_function_listed. simpl. apply in_or_app. right. now left.
  - intros [H | H]; contradiction.
  - intros _ _. split; [reflexivity|]. simpl.
    now apply count_occ_snoc_absent.
Qed.

(** C5. For every resolver and every function name, [IgnoreFunction]
    (or [Helper]) called for a function that is already in
    [ignoreFunctions] changes nothing.  Two registrations of the same
    function leave the resolver as the first one did: unchanged when the
    name was listed or its package ignored, and otherwise with the name
    appended once, so that it occurs exactly once. *)
Theorem registration_idempotent c st1 st2 f1 p1 f2 p2 name :
  calling_function our st1 = Ok (Found f1 p1) ->
  calling_function our st2 = Ok (Found f2 p2) ->
  (In (Function f1) (ignoreFunctions c) -> Helper our st1 c = Ok (tt, c))
  /\ (In (p1 ++ "." ++ name)%string (ignoreFunctions c) ->
      IgnoreFunction our name st1 c = Ok (tt, c))
  /\ (Function f2 = Function f1 ->
      exists c1,
        Helper our st1 c = Ok (tt, c1)
        /\ Helper our st2 c1 = Ok (tt, c1)
        /\ (In (Function f1) (ignoreFunctions c)
            \/ In p1 (ignorePackages c) -> c1 = c)
        /\ (~ In (Function f1) (ignoreFunctions c) ->
            ~ In p1 (ignorePackages c) ->
            c1 = mkACaller (numFramesToGet c) (ignorePackages c)
                           (ignoreFunctions c ++ [Function f1])
            /\ count_occ string_dec (ignoreFunctions c1) (Function f1)
               = 1%nat))
  /\ (p2 = p1 ->
      exists c1,
        IgnoreFunction our name st1 c = Ok (tt, c1)
        /\ IgnoreFunction our name st2 c1 = Ok (tt, c1)
        /\ (In (p1 ++ "." ++ name)%string (ignoreFunctions c)
            \/ In p1 (ignorePackages c) -> c1 = c)
        /\ (~ In (p1 ++ "." ++ name)%string (ignoreFunctions c) ->
            ~ In p1 (ignorePackages c) ->
            c1 = mkACaller (numFramesToGet c) (ignorePackages c)
                           (ignoreFunctions c
                              ++ [(p1 ++ "." ++ name)%string])
            /\ count_occ string_dec (ignoreFunctions c1)
                 (p1 ++ "." ++ name)%string = 1%nat)).
Proof.
  intros H1 H2.
  destruct (calling_function_found _ _ _ H1) as (Hp1 & Ho1 & Hr1 & _).
  destruct (calling_function_found _ _ _ H2) as (Hp2 & _).
  split; [|split; [|split]].
  - intros Hin. rewrite Helper_run, H1. now apply record_function_listed.
  - intros Hin. rewrite IgnoreFunction_run, H1.
    now apply record_function_listed.
  - intros Hf.
    assert (p2 = p1) as -> by (rewrite Hp1, Hp2, Hf; reflexivity).
    destruct (record_function_outcome (Function f1) p1 c Ho1 Hr1)
      as (c1 & R1 & R2 & Hsame & Hnew).
    exists c1. rewrite !Helper_run, H1, H2, Hf. auto.
  - intros ->.
    destruct (record_function_outcome (p1 ++ "." ++ name)%string p1 c
                Ho1 Hr1)
      as (c1 & R1 & R2 & Hsame & Hnew).
    exists c1. rewrite !IgnoreFunction_run, H1, H2. auto.
Qed.

(** The frame the loop of [Caller] stops with is not ignored, unless it
    is the last one. *)
Lemma Caller_loop_result c frames :
  ~ ignored our c (Caller_loop our c frames)
  \/ Caller_loop our c frames = last frames zeroFrame.
Proof.
  destruct (first_not_ignored c frames)
    as [Hall | (pre & f & post & -> & Hpre & Hnot)].
  - right. now apply Caller_loop_last.
  - left. now rewrite Caller_loop_first.
Qed.

(** ** C6: an ignored package subsumes its functions *)

(** C6. Once a package [p] is in [ignorePackages], a [Helper] or
    [IgnoreFunction] call whose resolved package is [p] leaves the
    resolver, and so [ignoreFunctions], unchanged, and [Caller] skips
    every frame whose package is [p]: it returns such a frame only as the
    last frame of the walk. *)
Theorem package_subsumes_function c st f p name :
  In p (ignorePackages c) ->
  calling_function our st = Ok (Found f p) ->
  Helper our st c = Ok (tt, c)
  /\ IgnoreFunction our name st c = Ok (tt, c)
  /\ (forall frame,
         PackageName (Function frame) = p -> skipFrame our c frame = true)
  /\ (forall st' num frames frame,
         NumberOfFramesToGet c = Ok (num, c) ->
         getFrames num 4 st' = Ok frames ->
         Caller our st' c = Ok (frame, c) ->
         PackageName (Function frame) = p ->
         frame = last frames zeroFrame).
Proof.
  intros Hin Hf. split; [|split; [|split]].
  - rewrite Helper_run, Hf. now apply record_function_subsumed.
  - rewrite IgnoreFunction_run, Hf. now apply record_function_subsumed.
  - intros frame Hp. apply skipFrame_ignored.
    right. right. left. now rewrite Hp.
  - intros st' num frames frame Hn Hg Hc Hp.
    rewrite (Caller_run c st' num Hn), Hg in Hc.
    inversion Hc as [Hc']. 
    destruct (Caller_loop_result c frames) as [Hnot | Hlast].
    + exfalso. apply Hnot. right. right. left.
      rewrite Hc', Hp. exact Hin.
    + now rewrite <- Hlast.
Qed.

(** ** C7: the two implicitly ignored packages *)

Lemma record_function_inv full p c c' :
  record_function our full p c = Ok (tt, c') ->
  c' = c
  \/ (p <> our /\ p <> "runtime"
      /\ c' = mkACaller (numFramesToGet c) (ignorePackages c)
                        (ignoreFunctions c ++ [full])).
Proof.
  rewrite record_function_run.
  destruct (listed full (ignoreFunctions c)).
  { intros H. inversion H. now left. }
  destruct (p =? our)%string eqn:Eo.
  { intros H. inversion H. now left. }
  destruct (p =? "runtime")%string eqn:Er.
  { intros H. inversion H. now left. }
  apply String.eqb_neq in Eo, Er. simpl.
  destruct (listed p (ignorePackages c)); intros H; inversion H; auto.
Qed.

(** Only a name without a slash can parse to [runtime]. *)
Lemma PackageName_runtime_flat s :
  PackageName s = "runtime" -> has_byte slash s = false.
Proof.
  destruct (name_shape_total s)
    as [pre mid post -> Hsm Hdm Hsp | mid post -> Hsm Hdm Hsp
       | pre tail -> Hs Hd | Hs Hd].
  - change (pre ++ "/" ++ mid ++ "." ++ post)%string
      with (pre ++ String slash (mid ++ String dot post))%string.
    rewrite (PackageName_path pre mid post Hsm Hdm Hsp). intros H.
    assert (Hb : has_byte slash (pre ++ String slash mid)%string = true).
    { rewrite has_byte_app. simpl. apply orb_true_r. }
    rewrite H in Hb. discriminate.
  - intros _. change (mid ++ "." ++ post)%string
      with (mid ++ String dot post)%string.
    rewrite has_byte_app, Hsm. simpl. exact Hsp.
  - change (pre ++ "/" ++ tail)%string with (pre ++ String slash tail)%string.
    rewrite (PackageName_path_nodot pre tail Hs Hd). discriminate.
  - intros _. exact Hs.
Qed.

Lemma qualified_not_runtime fn name :
  PackageName fn <> "runtime" ->
  PackageName (PackageName fn ++ "." ++ name)%string <> "runtime".
Proof.
  intros Hp H. pose proof (PackageName_runtime_flat _ H) as Hs.
  rewrite has_byte_app in Hs. apply orb_false_iff in Hs as [_ Hs].
  simpl in Hs. rewrite (PackageName_qualified fn name Hs) in H.
  contradiction.
Qed.

Lemma implicit_only_record c full :
  implicit_only our c ->
  PackageName full <> our -> PackageName full <> "runtime" ->
  implicit_only our
    (mkACaller (numFramesToGet c) (ignorePackages c)
               (ignoreFunctions c ++ [full])).
Proof.
  intros (Ho & Hr & Hf) Hfo Hfr.
  split; [exact Ho|]. split; [exact Hr|]. simpl.
  intros fn Hin. apply in_app_or in Hin as [Hin | [<- | []]].
  - now apply Hf.
  - now split.
Qed.

(** C7, as amended.  [Helper] and [IgnorePackage] preserve that the
    resolver's own package and the runtime package are in neither list;
    [IgnoreFunction(name)] preserves it for a bare [name] (without a
    slash), and for every [name] keeps the two packages out of
    [ignorePackages] and the runtime package out of [ignoreFunctions]. *)
Theorem implicit_only_preserved c st name c' :
  implicit_only our c ->
  (Helper our st c = Ok (tt, c') -> implicit_only our c')
  /\ (IgnorePackage our st c = Ok (tt, c') -> implicit_only our c')
  /\ (IgnoreFunction our name st c = Ok (tt, c') ->
      ~ In our (ignorePackages c')
      /\ ~ In "runtime" (ignorePackages c')
      /\ (forall fn, In fn (ignoreFunctions c') ->
            PackageName fn <> "runtime")
      /\ (has_byte slash name = false -> implicit_only our c')).
Proof.
  intros Hinv. split; [|split].
  - rewrite Helper_run.
    destruct (calling_function our st) as [[f p|]|] eqn:Ef;
      [| intros H; inversion H; now subst | discriminate].
    destruct (calling_function_found _ _ _ Ef) as (Hp & Ho & Hr & _).
    intros H. apply record_function_inv in H as [-> | (_ & _ & ->)];
      [assumption|].
    apply implicit_only_record; [assumption | now rewrite <- Hp ..].
  - rewrite IgnorePackage_run.
    destruct (calling_package our st) as [p|]; [|discriminate].
    destruct (p =? "")%string; [discriminate|].
    destruct (p =? our)%string eqn:Eo.
    { intros H. inversion H. now subst. }
    destruct (p =? "runtime")%string eqn:Er.
    { intros H. inversion H. now subst. }
    apply String.eqb_neq in Eo, Er. simpl.
    intros H. inversion H. destruct Hinv as (Ho & Hr & Hf).
    repeat split; simpl.
    + intros Hin. apply in_app_or in Hin as [Hin | [Heq | []]];
        [auto | congruence].
    + intros Hin. apply in_app_or in Hin as [Hin | [Heq | []]];
        [auto | congruence].
    + now apply Hf.
    + now apply Hf.
  - rewrite IgnoreFunction_run.
    destruct (calling_function our st) as [[f p|]|] eqn:Ef;
      [| intros H; inversion H; subst; destruct Hinv as (Ho & Hr & Hf);
         split; [exact Ho|]; split; [exact Hr|];
         split; [intros fn Hin; now apply Hf
                | intros _; exact (conj Ho (conj Hr Hf))]
       | discriminate].
    destruct (calling_function_found _ _ _ Ef) as (Hp & Ho & Hr & _).
    intros H. destruct Hinv as (Hio & Hir & Hif).
    apply record_function_inv in H as [-> | (_ & _ & ->)].
    { split; [exact Hio|]. split; [exact Hir|].
      split; [intros fn Hin; now apply Hif
             | intros _; exact (conj Hio (conj Hir Hif))]. }
    simpl. split; [assumption|]. split; [assumption|]. split.
    + intros fn Hin. apply in_app_or in Hin as [Hin | [<- | []]].
      * now apply Hif.
      * rewrite Hp. apply qualified_not_runtime. now rewrite <- Hp.
    + intros Hn. apply implicit_only_record.
      * exact (conj Hio (conj Hir Hif)).
      * rewrite Hp, (PackageName_qualified _ _ Hn). now rewrite <- Hp.
      * rewrite Hp, (PackageName_qualified _ _ Hn). now rewrite <- Hp.
Qed.

(** ** C3: IgnorePackage appends *)

Lemma listed_twice s xs p : listed s (xs ++ [p; p]) = listed s (xs ++ [p]).
Proof.
  rewrite !listed_app. unfold listed. simpl.
  destruct (s =? p)%string; reflexivity.
Qed.

(** C3, as amended.  [ignorePackages] is an append-only list: a call of
    [IgnorePackage] that resolves a package other than the resolver's own
    and the runtime package appends it, whether or not it is there
    already.  After two calls from the same package the name occurs two
    more times than before, and the frames skipped are those skipped
    after one call. *)
Theorem IgnorePackage_appends c st p :
  calling_package our st = Ok p ->
  p <> ""%string -> p <> our -> p <> "runtime" ->
  exists c1 c2,
    IgnorePackage our st c = Ok (tt, c1)
    /\ IgnorePackage our st c1 = Ok (tt, c2)
    /\ ignorePackages c1 = ignorePackages c ++ [p]
    /\ ignorePackages c2 = ignorePackages c ++ [p; p]
    /\ count_occ string_dec (ignorePackages c2) p
       = (count_occ string_dec (ignorePackages c) p + 2)%nat
    /\ forall frame, skipFrame our c2 frame = skipFrame our c1 frame.
Proof.
  intros Hp He Ho Hr.
  apply String.eqb_neq in He, Ho, Hr.
  exists (mkACaller (numFramesToGet c) (ignorePackages c ++ [p])
                    (ignoreFunctions c)),
         (mkACaller (numFramesToGet c) (ignorePackages c ++ [p; p])
                    (ignoreFunctions c)).
  rewrite !IgnorePackage_run, Hp, He, Ho, Hr. simpl.
  split; [reflexivity|].
  split; [now rewrite <- app_assoc|].
  split; [reflexivity|]. split; [reflexivity|].
  split.
  - rewrite count_occ_app. simpl.
    destruct (string_dec p p); [lia | contradiction].
  - intros frame. unfold skipFrame. simpl. now rewrite listed_twice.
Qed.

(** ** C9: when Caller returns *)

(** C9, as amended.  With the default depth, or one set to at most
    [granted_len - 4], [Caller] returns a frame and leaves the resolver
    alone whenever the stack holds at least 6 program counters; on a
    shallower stack it panics in the frame source, and with a depth whose
    buffer [make] refuses it panics on every stack. *)
Theorem Caller_returns_on_deep_stack c st :
  (numFramesToGet c = 0 \/ 15 < numFramesToGet c <= granted_len - 4 ->
   ((6 <= List.length st)%nat ->
    exists frame, Caller our st c = Ok (frame, c))
   /\ ((List.length st <= 5)%nat ->
       Caller our st c = Panic "no callers"
       \/ Caller our st c = Panic "not enough frames"))
  /\ (max_slice_len - 4 < numFramesToGet c < 2 ^ 63 ->
      Caller our st c = Panic "makeslice: len out of range").
Proof.
  split.
  - intros Hd.
    set (num := if negb (numFramesToGet c =? 0) then numFramesToGet c
                else DefaultNumberOfFramesToGet).
    assert (Hnum : 15 <= num <= 2 ^ 20 - 4).
    { unfold num, DefaultNumberOfFramesToGet. unfold granted_len in Hd.
      destruct (numFramesToGet c =? 0) eqn:E; simpl.
      - lia.
      - apply Z.eqb_neq in E. lia. }
    rewrite (Caller_run c st num (NumberOfFramesToGet_run c)).
    rewrite (getFrames_cases num 4 st) by lia.
    unfold Callers. split; intros Hlen.
    + destruct (Z.min (num + 4) (Z.of_nat (List.length st)) =? 0) eqn:E0;
        [apply Z.eqb_eq in E0; lia|].
      destruct (4 >=? Z.min (num + 4) (Z.of_nat (List.length st)) - 1)
        eqn:E1; [apply Z.geb_le in E1; lia|].
      eexists. reflexivity.
    + destruct (Z.min (num + 4) (Z.of_nat (List.length st)) =? 0) eqn:E0;
        [now left|].
      destruct (4 >=? Z.min (num + 4) (Z.of_nat (List.length st)) - 1)
        eqn:E1; [now right|].
      rewrite Z.geb_leb in E1. apply Z.leb_gt in E1. lia.
  - intros Hd. unfold max_slice_len in Hd.
    rewrite (Caller_run c st _ (NumberOfFramesToGet_run c)).
    destruct (numFramesToGet c =? 0) eqn:E; [apply Z.eqb_eq in E; lia|].
    cbn [negb]. unfold getFrames, max_slice_len.
    destruct (Z_lt_le_dec (numFramesToGet c + 4) (2 ^ 63)) as [Hlt | Hge].
    + rewrite int_wrap_small by lia.
      destruct (numFramesToGet c + 4 <? 0) eqn:E0; [reflexivity|].
      destruct (2 ^ 45 <? numFramesToGet c + 4) eqn:E1; [reflexivity|].
      apply Z.ltb_ge in E1. lia.
    + assert (Hw : int_wrap (numFramesToGet c + 4) < 0).
      { unfold int_wrap.
        replace (numFramesToGet c + 4 + 2 ^ 63)
          with (numFramesToGet c + 4 - 2 ^ 63 + 1 * 2 ^ 64) by lia.
        rewrite Z.mod_add by lia. rewrite Z.mod_small by lia. lia. }
      apply Z.ltb_lt in Hw. now rewrite Hw.
Qed.

(** ** C10: the value-receiver methods *)

(** C10. [Caller] and [NumberOfFramesToGet] never modify the resolver:
    the resolver they are called on keeps its three fields, and their
    bodies do not even assign to the copy they run on. *)
Theorem value_receivers_leave_resolver c st :
  unchanged_by (Caller our st) c
  /\ unchanged_by (Caller_body our st) c
  /\ unchanged_by NumberOfFramesToGet c
  /\ unchanged_by NumberOfFramesToGet_body c.
Proof.
  unfold unchanged_by. repeat split.
  - rewrite (Caller_run c st _ (NumberOfFramesToGet_run c)).
    destruct (getFrames _ 4 st); [reflexivity | exact I].
  - unfold Caller_body, bind. rewrite NumberOfFramesToGet_run.
    unfold lift. destruct (getFrames _ 4 st); [reflexivity | exact I].
  - now rewrite NumberOfFramesToGet_run.
  - unfold NumberOfFramesToGet_body, bind, get.
    destruct (negb (numFramesToGet c =? 0)); reflexivity.
Qed.

End ResolverFacts.

(** ** C2: the configured depth *)

Lemma SetNumberOfFramesToGet_run size c :
  SetNumberOfFramesToGet size c =
    if size >? DefaultNumberOfFramesToGet
    then Ok (tt, mkACaller (int_wrap size) (ignorePackages c)
                           (ignoreFunctions c))
    else Ok (tt, c).
Proof.
  unfold SetNumberOfFramesToGet.
  destruct (size >? DefaultNumberOfFramesToGet); reflexivity.
Qed.

(** C2, as amended.  [SetNumberOfFramesToGet(n)] compares [n] with the
    constant default 15 and not with the current depth: with [n <= 15] it
    changes nothing, with [15 < n < 2^63] the depth becomes [n] (also when
    that is less than the current depth) and the ignore lists stay.  A depth
    of at least 15 therefore stays at least 15. *)
Theorem SetNumberOfFramesToGet_spec c size :
  0 <= size < 2 ^ 63 ->
  (size <= 15 -> SetNumberOfFramesToGet size c = Ok (tt, c))
  /\ (15 < size ->
      exists c',
        SetNumberOfFramesToGet size c = Ok (tt, c')
        /\ NumberOfFramesToGet c' = Ok (size, c')
        /\ ignorePackages c' = ignorePackages c
        /\ ignoreFunctions c' = ignoreFunctions c)
  /\ (forall n, NumberOfFramesToGet c = Ok (n, c) -> 15 <= n ->
      exists c' n',
        SetNumberOfFramesToGet size c = Ok (tt, c')
        /\ NumberOfFramesToGet c' = Ok (n', c')
        /\ 15 <= n' /\ (n' = n \/ n' = size)).
Proof.
  intros Hs. rewrite SetNumberOfFramesToGet_run.
  unfold DefaultNumberOfFramesToGet.
  split; [|split].
  - intros H. destruct (size >? 15) eqn:E; [|reflexivity].
    apply Z.gtb_lt in E. lia.
  - intros H. destruct (size >? 15) eqn:E;
      [|rewrite Z.gtb_ltb in E; apply Z.ltb_ge in E; lia].
    eexists. split; [reflexivity|].
    rewrite NumberOfFramesToGet_run. simpl.
    rewrite int_wrap_small by lia.
    destruct (size =? 0) eqn:E0; [apply Z.eqb_eq in E0; lia|].
    simpl. auto.
  - intros n Hn Hge. destruct (size >? 15) eqn:E.
    + apply Z.gtb_lt in E. eexists. exists size. split; [reflexivity|].
      rewrite NumberOfFramesToGet_run. simpl.
      rewrite int_wrap_small by lia.
      destruct (size =? 0) eqn:E0; [apply Z.eqb_eq in E0; lia|].
      simpl. repeat split; auto. lia.
    + exists c, n. auto.
Qed.

(** ** C8: when the frame source fails *)

(** C8, as amended.  [getFrames] panics in [make] when the buffer length
    [num + skip] is negative as an [int] or above [max_slice_len].  With a
    buffer of at most [granted_len] words it fails when no program counter
    is written, when [skip] is at least the number written minus one, and
    when [skip] is negative; otherwise it returns the frames of the program
    counters from [skip] on.  So for a non-negative [skip] and such a
    buffer it fails in exactly the two cases "no callers" and "not enough
    frames". *)
Theorem getFrames_failures num skip st :
  (int_wrap (num + skip) < 0 \/ max_slice_len < int_wrap (num + skip) ->
   getFrames num skip st = Panic "makeslice: len out of range")
  /\ (0 <= num + skip <= granted_len ->
      let n := Callers (num + skip) st in
      (n = 0 -> getFrames num skip st = Panic "no callers")
      /\ (n <> 0 -> n - 1 <= skip ->
          getFrames num skip st = Panic "not enough frames")
      /\ (n <> 0 -> skip < n - 1 -> skip < 0 ->
          getFrames num skip st = Panic "slice bounds out of range")
      /\ (n <> 0 -> 0 <= skip < n - 1 ->
          getFrames num skip st = Ok (CallersFrames (pc_slice st skip n))))
  /\ (0 <= skip -> 0 <= num + skip <= granted_len ->
      let n := Callers (num + skip) st in
      getFrames num skip st =
        if (n =? 0) || (skip >=? n - 1)
        then Panic (if n =? 0 then "no callers" else "not enough frames")
        else Ok (CallersFrames (pc_slice st skip n))).
Proof.
  split; [|split].
  - intros H. unfold getFrames.
    destruct H as [H | H]; apply Z.ltb_lt in H; rewrite H;
      [reflexivity | now rewrite orb_true_r].
  - intros H n. unfold granted_len in H.
    unfold getFrames, max_slice_len.
    rewrite int_wrap_small by lia. fold n.
    destruct (num + skip <? 0) eqn:E; [apply Z.ltb_lt in E; lia|].
    destruct (2 ^ 45 <? num + skip) eqn:E'; [apply Z.ltb_lt in E'; lia|].
    cbn [orb]. repeat split.
    + intros ->. reflexivity.
    + intros Hn Hs. apply Z.eqb_neq in Hn. rewrite Hn.
      apply Z.geb_le in Hs. now rewrite Hs.
    + intros Hn Hs Hneg. apply Z.eqb_neq in Hn. rewrite Hn.
      destruct (skip >=? n - 1) eqn:E1; [apply Z.geb_le in E1; lia|].
      apply Z.ltb_lt in Hneg. now rewrite Hneg.
    + intros Hn [Hs0 Hs]. apply Z.eqb_neq in Hn. rewrite Hn.
      destruct (skip >=? n - 1) eqn:E1; [apply Z.geb_le in E1; lia|].
      apply Z.ltb_ge in Hs0. now rewrite Hs0.
  - intros Hs Hlen n. unfold granted_len in Hlen.
    rewrite (getFrames_cases num skip st Hs) by lia. fold n.
    destruct (n =? 0); [reflexivity|].
    destruct (skip >=? n - 1); reflexivity.
Qed.

(** ** The claims on the sample stacks *)

Lemma implicit_only_zero our : implicit_only our zeroACaller.
Proof. split; [intros []|]. split; [intros []|]. intros fn []. Qed.

(** C1 on the test's stack: the frame after the four skipped ones. *)
Lemma Caller_first_not_ignored_witness :
  NumberOfFramesToGet zeroACaller = Ok (15, zeroACaller)
  /\ exists frame,
       Caller caller_pkg test_stack zeroACaller = Ok (frame, zeroACaller)
       /\ Function frame
          = "github.com/gdey/caller_test.TestCaller_Caller.func1.1".
Proof.
  split; [reflexivity|].
  destruct (Caller_first_not_ignored caller_pkg zeroACaller test_stack 15
              (CallersFrames (pc_slice test_stack 4 7)) eq_refl eq_refl)
    as (_ & frame & Hc & _).
  exists frame. split; [exact Hc|].
  vm_compute in Hc. inversion Hc. reflexivity.
Defined.

(** C2 as stated fails: after a depth of 30, the smaller size 20 lowers
    the depth to 20. *)
Lemma depth_lowered_by_smaller_size :
  SetNumberOfFramesToGet 30 zeroACaller = Ok (tt, mkACaller 30 [] [])
  /\ NumberOfFramesToGet (mkACaller 30 [] []) = Ok (30, mkACaller 30 [] [])
  /\ 20 <= 30
  /\ SetNumberOfFramesToGet 20 (mkACaller 30 [] [])
     = Ok (tt, mkACaller 20 [] [])
  /\ NumberOfFramesToGet (mkACaller 20 [] []) = Ok (20, mkACaller 20 [] [])
  /\ 20 <> 30.
Proof. repeat split; try reflexivity; lia. Qed.

Lemma SetNumberOfFramesToGet_spec_witness :
  0 <= 20 < 2 ^ 63
  /\ exists c',
       SetNumberOfFramesToGet 20 (mkACaller 30 [] []) = Ok (tt, c')
       /\ NumberOfFramesToGet c' = Ok (20, c').
Proof.
  assert (H : 0 <= 20 < 2 ^ 63) by lia.
  split; [exact H|].
  destruct (SetNumberOfFramesToGet_spec (mkACaller 30 [] []) 20 H)
    as (_ & Hset & _).
  destruct (Hset ltac:(lia)) as (c' & H1 & H2 & _).
  exists c'. split; assumption.
Defined.

(** C3 as stated fails: two calls from the same package leave its name
    twice in [ignorePackages]. *)
Lemma IgnorePackage_twice_duplicates :
  IgnorePackage caller_pkg (log_stack "IgnorePackage") zeroACaller
  = Ok (tt, mkACaller 0 [log_pkg] [])
  /\ IgnorePackage caller_pkg (log_stack "IgnorePackage")
       (mkACaller 0 [log_pkg] [])
     = Ok (tt, mkACaller 0 [log_pkg; log_pkg] [])
  /\ count_occ string_dec [log_pkg; log_pkg] log_pkg = 2%nat.
Proof. repeat split; vm_compute; reflexivity. Qed.

Lemma IgnorePackage_appends_witness :
  calling_package caller_pkg (log_stack "IgnorePackage") = Ok log_pkg
  /\ exists c1 c2,
       IgnorePackage caller_pkg (log_stack "IgnorePackage")
         (mkACaller 0 [log_pkg] []) = Ok (tt, c1)
       /\ IgnorePackage caller_pkg (log_stack "IgnorePackage") c1
          = Ok (tt, c2)
       /\ ignorePackages c2 = [log_pkg; log_pkg; log_pkg].
Proof.
  split; [reflexivity|].
  destruct (IgnorePackage_appends caller_pkg (mkACaller 0 [log_pkg] [])
              (log_stack "IgnorePackage") log_pkg eq_refl
              ltac:(discriminate) ltac:(discriminate) ltac:(discriminate))
    as (c1 & c2 & H1 & H2 & _ & H4 & _).
  exists c1, c2. repeat split; assumption.
Defined.

(** C5 on the test's stack: [Helper] twice from [log.Package] leaves
    [log.Package] in the list once. *)
Lemma registration_idempotent_witness :
  calling_function caller_pkg (log_stack "Helper")
  = Ok (Found (mkFrame "github.com/gdey/caller/simple/log.Package" "" 0)
              log_pkg)
  /\ Helper caller_pkg (log_stack "Helper") zeroACaller
     = Ok (tt, mkACaller 0 []
                 ["github.com/gdey/caller/simple/log.Package"%string])
  /\ Helper caller_pkg (log_stack "Helper")
       (mkACaller 0 []
          ["github.com/gdey/caller/simple/log.Package"%string])
     = Ok (tt, mkACaller 0 []
                 ["github.com/gdey/caller/simple/log.Package"%string])
  /\ count_occ string_dec
       ["github.com/gdey/caller/simple/log.Package"%string]
       "github.com/gdey/caller/simple/log.Package"%string
     = 1%nat.
Proof.
  assert (Hf : calling_function caller_pkg (log_stack "Helper")
               = Ok (Found (mkFrame
                              "github.com/gdey/caller/simple/log.Package"
                              "" 0) log_pkg))
    by (vm_compute; reflexivity).
  split; [exact Hf|].
  destruct (registration_idempotent caller_pkg zeroACaller
              (log_stack "Helper") (log_stack "Helper")
              _ _ _ _ "Package" Hf Hf)
    as (_ & _ & Hh & _).
  destruct (Hh eq_refl) as (c1 & H1 & H2 & _ & Hnew).
  destruct (Hnew (fun H : False => H) (fun H : False => H)) as [E Hc].
  rewrite E in H1, H2, Hc.
  split; [exact H1|]. split; [exact H2 | exact Hc].
Defined.

(** C6 on the test's stack: [Helper] after [IgnorePackage] in
    [log.PackageHelper]. *)
Lemma package_subsumes_function_witness :
  In log_pkg (ignorePackages (mkACaller 0 [log_pkg] []))
  /\ Helper caller_pkg (log_stack "Helper") (mkACaller 0 [log_pkg] [])
     = Ok (tt, mkACaller 0 [log_pkg] [])
  /\ IgnoreFunction caller_pkg "Package" (log_stack "IgnoreFunction")
       (mkACaller 0 [log_pkg] [])
     = Ok (tt, mkACaller 0 [log_pkg] []).
Proof.
  assert (Hin : In log_pkg (ignorePackages (mkACaller 0 [log_pkg] [])))
    by (simpl; left; reflexivity).
  assert (Hf : forall method,
             calling_function caller_pkg (log_stack method)
             = Ok (Found (mkFrame
                            "github.com/gdey/caller/simple/log.Package"
                            "" 0) log_pkg))
    by (intros method; reflexivity).
  split; [exact Hin|]. split.
  - exact (proj1 (package_subsumes_function caller_pkg
                    (mkACaller 0 [log_pkg] []) (log_stack "Helper")
                    _ log_pkg "Package" Hin (Hf "Helper"))).
  - exact (proj1 (proj2 (package_subsumes_function caller_pkg
                    (mkACaller 0 [log_pkg] []) (log_stack "IgnoreFunction")
                    _ log_pkg "Package" Hin (Hf "IgnoreFunction")))).
Defined.

(** C7 as stated fails: from a package named [github], a name with a
    slash is recorded as a function of the resolver's own package. *)
Lemma IgnoreFunction_records_own_package :
  implicit_only caller_pkg zeroACaller
  /\ IgnoreFunction caller_pkg "com/gdey/caller.Caller" github_stack
       zeroACaller
     = Ok (tt, mkACaller 0 [] ["github.com/gdey/caller.Caller"])
  /\ PackageName "github.com/gdey/caller.Caller" = caller_pkg
  /\ ~ implicit_only caller_pkg
         (mkACaller 0 [] ["github.com/gdey/caller.Caller"]).
Proof.
  split; [apply implicit_only_zero|].
  split; [reflexivity|]. split; [reflexivity|].
  intros (_ & _ & H).
  destruct (H "github.com/gdey/caller.Caller") as [Ho _].
  - now left.
  - apply Ho. reflexivity.
Qed.

Lemma implicit_only_preserved_witness :
  implicit_only caller_pkg zeroACaller
  /\ implicit_only caller_pkg
       (mkACaller 0 [] ["github.com/gdey/caller/simple/log.Package"]).
Proof.
  split; [apply implicit_only_zero|].
  exact (proj1 (implicit_only_preserved caller_pkg zeroACaller
                  (log_stack "Helper") "Package"
                  (mkACaller 0 []
                     ["github.com/gdey/caller/simple/log.Package"])
                  (implicit_only_zero caller_pkg)) eq_refl).
Defined.

(** C8 as stated fails: the frame source also fails on a buffer length
    that is negative or beyond what [make] allocates, and on a negative
    [skip] with seven program counters written. *)
Lemma getFrames_other_failures :
  getFrames (- 2 ^ 63) 4 test_stack = Panic "makeslice: len out of range"
  /\ getFrames (2 ^ 62) 4 test_stack = Panic "makeslice: len out of range"
  /\ Callers (10 + -1) test_stack = 7
  /\ ~ (7 - 1 <= -1)
  /\ getFrames 10 (-1) test_stack = Panic "slice bounds out of range".
Proof. repeat split; try reflexivity. lia. Qed.

Lemma getFrames_failures_witness :
  0 <= 4 /\ 0 <= 15 + 4 <= granted_len
  /\ getFrames 15 4 test_stack = Ok (CallersFrames (pc_slice test_stack 4 7))
  /\ getFrames 15 4 goroutine_stack = Panic "not enough frames".
Proof.
  assert (H4 : 0 <= 4) by lia.
  assert (Hlen : 0 <= 15 + 4 <= granted_len) by (unfold granted_len; lia).
  split; [exact H4|]. split; [exact Hlen|]. split.
  - exact (proj2 (proj2 (getFrames_failures 15 4 test_stack)) H4 Hlen).
  - exact (proj2 (proj2 (getFrames_failures 15 4 goroutine_stack)) H4 Hlen).
Defined.

(** C9 as stated fails: at the bottom of a goroutine [Caller] panics, and
    so it does on the test's stack once the depth has been set to 2^62. *)
Lemma Caller_panics_in_goroutine :
  Caller caller_pkg goroutine_stack zeroACaller = Panic "not enough frames"
  /\ SetNumberOfFramesToGet (2 ^ 62) zeroACaller
     = Ok (tt, mkACaller (2 ^ 62) [] [])
  /\ Caller caller_pkg test_stack (mkACaller (2 ^ 62) [] [])
     = Panic "makeslice: len out of range".
Proof. repeat split; vm_compute; reflexivity. Qed.

Lemma Caller_returns_on_deep_stack_witness :
  (numFramesToGet zeroACaller = 0
   \/ 15 < numFramesToGet zeroACaller <= granted_len - 4)
  /\ (6 <= List.length test_stack)%nat
  /\ exists frame,
       Caller caller_pkg test_stack zeroACaller = Ok (frame, zeroACaller).
Proof.
  assert (Hd : numFramesToGet zeroACaller = 0
               \/ 15 < numFramesToGet zeroACaller <= granted_len - 4)
    by (left; reflexivity).
  assert (Hl : (6 <= List.length test_stack)%nat) by (simpl; lia).
  split; [exact Hd|]. split; [exact Hl|].
  exact (proj1 (proj1 (Caller_returns_on_deep_stack caller_pkg zeroACaller
                         test_stack) Hd) Hl).
Defined.


(** * Further properties of the code *)

(** ** PackageName *)

Local Open Scope string_scope.

(** A name is its package, a dot and a rest without a slash whenever the
    name has a dot that no slash follows; otherwise [PackageName] returns
    the empty string.  So it returns the empty string exactly when every
    dot of the name is followed by a slash (or there is none), or the
    name, free of slashes, begins with a dot. *)
Theorem PackageName_splits_name s :
  ((exists post,
       s = PackageName s ++ "." ++ post /\ has_byte slash post = false)
   \/ (PackageName s = ""
       /\ forall pkg post,
            s = pkg ++ "." ++ post -> has_byte slash post = true))
  /\ (PackageName s = ""
      <-> (forall pkg post,
              s = pkg ++ "." ++ post -> has_byte slash post = true)
          \/ exists post, s = "." ++ post /\ has_byte slash post = false).
Proof.
  assert (Hsplit :
    (exists post,
        s = PackageName s ++ "." ++ post /\ has_byte slash post = false)
    \/ (PackageName s = ""
        /\ forall pkg post,
             s = pkg ++ "." ++ post -> has_byte slash post = true));
  [|split; [exact Hsplit|];
    split;
    [intros He; destruct Hsplit as [(post & E & Hp) | (_ & Hall)];
       [right; exists post; rewrite He in E; now split | now left]
    |intros [Hall | (post & -> & Hp)];
       [destruct Hsplit as [(post & E & Hp) | (He & _)];
          [apply Hall in E; congruence | exact He]
       |exact (PackageName_flat "" post eq_refl eq_refl Hp)]]].

  destruct (name_shape_total s)
    as [pre mid post -> Hsm Hdm Hsp | mid post -> Hsm Hdm Hsp
       | pre tail -> Hs Hd | Hs Hd].
  - left. exists post. split; [|exact Hsp].
    change (pre ++ "/" ++ mid ++ "." ++ post)
      with (pre ++ String slash (mid ++ String dot post)).
    rewrite (PackageName_path pre mid post Hsm Hdm Hsp).
    rewrite app_assoc_str. reflexivity.
  - left. exists post. split; [|exact Hsp].
    change (mid ++ "." ++ post) with (mid ++ String dot post).
    now rewrite (PackageName_flat mid post Hsm Hdm Hsp).
  - right. split.
    + change (pre ++ "/" ++ tail) with (pre ++ String slash tail).
      now apply PackageName_path_nodot.
    + intros pkg post E.
      destruct (has_byte slash post) eqn:Ep; [reflexivity|exfalso].
      assert (Hl : LastIndex (pre ++ String slash tail) slash
                   = Z.of_nat (String.length pre))
        by now apply LastIndex_last.
      change (pre ++ "/" ++ tail) with (pre ++ String slash tail) in E.
      (* the dot of [pkg . post] lies before the last slash, so the slash
         lies in [post] *)
      assert (Hsl : has_byte slash (pkg ++ String dot post) = true).
      { change (pkg ++ "." ++ post) with (pkg ++ String dot post) in E.
        rewrite <- E, has_byte_app. simpl. apply orb_true_r. }
      rewrite has_byte_app in Hsl. simpl in Hsl. rewrite Ep in Hsl.
      rewrite orb_false_r in Hsl.
      (* the last slash is in [pkg], hence before the dot: the tail has it *)
      destruct (split_last slash pkg) as [Hno | (p1 & p2 & -> & Hp2)];
        [rewrite Hno in Hsl; discriminate|].
      change ((p1 ++ String slash p2) ++ "." ++ post)
        with ((p1 ++ String slash p2) ++ String dot post) in E.
      rewrite app_assoc_str in E.
      change (String slash p2 ++ String dot post)
        with (String slash (p2 ++ String dot post)) in E.
      assert (Hp : has_byte slash (p2 ++ String dot post) = false).
      { rewrite has_byte_app, Hp2. simpl. exact Ep. }
      pose proof (LastIndex_last p1 _ slash Hp) as Hl2.
      rewrite <- E, Hl in Hl2.
      assert (Hpre : pre = p1).
      { pose proof (take_app_length pre (String slash tail)) as T1.
        pose proof (take_app_length p1
                      (String slash (p2 ++ String dot post))) as T2.
        rewrite E in T1. apply Nat2Z.inj in Hl2. rewrite Hl2 in T1.
        congruence. }
      subst p1.
      assert (Ht : tail = p2 ++ String dot post).
      { pose proof (drop_app_length pre (String slash tail)) as D1.
        pose proof (drop_app_length pre
                      (String slash (p2 ++ String dot post))) as D2.
        rewrite E in D1. congruence. }
      rewrite Ht, has_byte_app in Hd. simpl in Hd.
      rewrite orb_true_r in Hd. discriminate.
  - right. split; [now apply PackageName_flat_nodot|].
    intros pkg post E. exfalso.
    rewrite E, has_byte_app in Hd. simpl in Hd.
    rewrite orb_true_r in Hd. discriminate.
Qed.

Local Open Scope Z_scope.
Local Open Scope list_scope.

(** ** The window of the frame source *)

Lemma getFrames_frames num skip st :
  0 <= skip -> 2 <= num -> num + skip <= 2 ^ 45 ->
  skip + 1 < Z.of_nat (List.length st) ->
  getFrames num skip st
  = Ok (CallersFrames (firstn (Z.to_nat num) (skipn (Z.to_nat skip) st))).
Proof.
  intros Hs Hn Hb Hl.
  rewrite (getFrames_cases num skip st Hs) by lia.
  unfold Callers.
  set (n := Z.min (num + skip) (Z.of_nat (List.length st))).
  assert (Hn2 : skip + 2 <= n) by (unfold n; lia).
  destruct (n =? 0) eqn:E0; [apply Z.eqb_eq in E0; lia|].
  destruct (skip >=? n - 1) eqn:E1; [apply Z.geb_le in E1; lia|].
  f_equal. f_equal. unfold pc_slice.
  destruct (Z.le_gt_cases (num + skip) (Z.of_nat (List.length st))) as [H|H].
  - replace (n - skip) with num by (unfold n; lia). reflexivity.
  - replace n with (Z.of_nat (List.length st)) by (unfold n; lia).
    rewrite !firstn_all2; [reflexivity | |];
      rewrite length_skipn; lia.
Qed.

(** On a stack deeper than [skip + 1], and with a buffer of at most
    [granted_len] words, [getFrames] returns the frames of the program
    counters that follow the first [skip], at most [num] of them: the whole
    rest of the stack when it is shorter. *)
Theorem getFrames_window num skip st :
  0 <= skip -> 2 <= num -> num + skip <= granted_len ->
  skip + 1 < Z.of_nat (List.length st) ->
  getFrames num skip st
  = Ok (CallersFrames (firstn (Z.to_nat num) (skipn (Z.to_nat skip) st)))
  /\ Z.of_nat (List.length (firstn (Z.to_nat num) (skipn (Z.to_nat skip) st)))
     = Z.min num (Z.of_nat (List.length st) - skip).
Proof.
  intros Hs Hn Hb Hl. unfold granted_len in Hb.
  split; [apply getFrames_frames; lia|].
  rewrite length_firstn, length_skipn. lia.
Qed.

Lemma getFrames_window_witness :
  getFrames 15 4 test_stack
  = Ok (CallersFrames (firstn (Z.to_nat 15) (skipn (Z.to_nat 4) test_stack))).
Proof.
  apply (getFrames_window 15 4 test_stack);
    [lia | lia | unfold granted_len; lia | simpl; lia].
Defined.

(** The frames of the program counters [pcs] that follow the dropped ones
    come first in what [getFrames] returns. *)
Lemma getFrames_prefix num skip dropped pcs rest :
  Z.of_nat (List.length dropped) = skip ->
  (2 <= List.length pcs)%nat ->
  Z.of_nat (List.length pcs) <= num -> num + skip <= 2 ^ 45 ->
  exists tail,
    getFrames num skip (dropped ++ pcs ++ rest)
    = Ok (CallersFrames pcs ++ tail).
Proof.
  intros Hd Hp Hn Hb.
  rewrite getFrames_frames; try lia.
  - rewrite <- Hd, Nat2Z.id, skipn_app, skipn_all, Nat.sub_diag. simpl.
    rewrite firstn_app.
    rewrite (firstn_all2 pcs) by lia.
    unfold CallersFrames. rewrite concat_app. eexists. reflexivity.
  - rewrite !List.length_app. lia.
Qed.

(** ** ourPackage *)

Lemma ourPackage_loop_first pre frame post :
  Forall (fun x => PackageName (Function x) = ""%string) pre ->
  PackageName (Function frame) <> ""%string ->
  ourPackage_loop (pre ++ frame :: post) = PackageName (Function frame).
Proof.
  intros Hpre Hf.
  induction Hpre as [|x pre Hx _ IH]; cbn [app ourPackage_loop].
  - apply String.eqb_neq in Hf. now rewrite Hf.
  - rewrite Hx. cbn [String.eqb andb].
    destruct (pre ++ frame :: post) eqn:E; [now destruct pre | exact IH].
Qed.

Lemma ourPackage_loop_none frames :
  Forall (fun x => PackageName (Function x) = ""%string) frames ->
  ourPackage_loop frames = ""%string.
Proof.
  intros Hall. induction Hall as [|x rest Hx _ IH]; [reflexivity|].
  cbn [ourPackage_loop]. rewrite Hx. cbn [String.eqb andb].
  destruct rest; [reflexivity | exact IH].
Qed.

(** [ourPackage] fetches four program counters after the first two and
    returns the package of the first frame whose package parses; when none
    does it returns the empty string. *)
Theorem ourPackage_first_parsable st frames :
  getFrames 4 2 st = Ok frames ->
  (forall pre frame post,
      frames = pre ++ frame :: post ->
      Forall (fun x => PackageName (Function x) = ""%string) pre ->
      PackageName (Function frame) <> ""%string ->
      ourPackage st = Ok (PackageName (Function frame)))
  /\ (Forall (fun x => PackageName (Function x) = ""%string) frames ->
      ourPackage st = Ok ""%string).
Proof.
  intros Hg. unfold ourPackage. rewrite Hg. split.
  - intros pre frame post -> Hpre Hf. f_equal.
    now apply ourPackage_loop_first.
  - intros Hall. f_equal. now apply ourPackage_loop_none.
Qed.

Lemma ourPackage_first_parsable_witness :
  ourPackage test_stack = Ok caller_pkg.
Proof.
  assert (Hg : getFrames 4 2 test_stack
               = Ok (CallersFrames (pc_slice test_stack 2 6)))
    by (vm_compute; reflexivity).
  assert (Hp : PackageName "github.com/gdey/caller.ACaller.Caller"
               = caller_pkg) by (vm_compute; reflexivity).
  rewrite <- Hp.
  apply (proj1 (ourPackage_first_parsable test_stack _ Hg) []
           (mkFrame "github.com/gdey/caller.ACaller.Caller" "" 0)
           (CallersFrames (pc_slice test_stack 3 6))).
  - vm_compute; reflexivity.
  - constructor.
  - cbn [Function]. rewrite Hp. discriminate.
Defined.

(** Run in the package at start-up, [ourPackage] returns the package it
    is compiled in: the frame it starts at is its own. *)
Theorem ourPackage_is_own_package our fn ctx :
  our = PackageName fn -> our <> ""%string -> ctx <> [] ->
  ourPackage (at_Callers our "ourPackage" 43 ctx) = Ok our.
Proof.
  intros Hp Hne Hctx.
  destruct ctx as [|pc rest]; [contradiction|].
  destruct (getFrames_prefix 4 2
              [[mkFrame "runtime.Callers" "" 0];
               [library_frame our "getFrames" 67]]
              [[library_frame our "ourPackage" 43]; pc] rest)
    as (tail & Hg); [reflexivity | simpl; lia | simpl; lia | lia |].
  change (at_Callers our "ourPackage" 43 (pc :: rest))
    with ([[mkFrame "runtime.Callers" "" 0];
           [library_frame our "getFrames" 67]]
          ++ [[library_frame our "ourPackage" 43]; pc] ++ rest).
  assert (Hown : PackageName (Function (library_frame our "ourPackage" 43))
                 = our).
  { unfold library_frame. simpl Function. rewrite Hp.
    now apply PackageName_qualified. }
  unfold ourPackage. rewrite Hg. f_equal.
  transitivity (PackageName (Function (library_frame our "ourPackage" 43)));
    [|exact Hown].
  apply (ourPackage_loop_first []
           (library_frame our "ourPackage" 43) ((pc ++ []) ++ tail)).
  - constructor.
  - now rewrite Hown.
Qed.

Lemma ourPackage_is_own_package_witness :
  ourPackage
    (at_Callers caller_pkg "ourPackage" 43
       (stack_of ["github.com/gdey/caller.init"; "runtime.main"]))
  = Ok caller_pkg.
Proof.
  apply (ourPackage_is_own_package caller_pkg
           "github.com/gdey/caller.ourPackage");
    [reflexivity | discriminate | discriminate].
Defined.

Section MoreResolverFacts.

Variable our : string.

(** ** Whom Helper and IgnoreFunction resolve *)

Lemma caller_loop_first pre frame post :
  Forall (passed_over our) pre -> ~ passed_over our frame ->
  caller_loop our (pre ++ frame :: post)
  = Ok (Found frame (PackageName (Function frame))).
Proof.
  intros Hpre Hf.
  assert (Hn : (Function frame =? "")%string = false).
  { apply String.eqb_neq. intros E. apply Hf. now left. }
  assert (Ho : (PackageName (Function frame) =? our)%string = false).
  { apply String.eqb_neq. intros E. apply Hf. right. now left. }
  assert (Hr : (PackageName (Function frame) =? "runtime")%string = false).
  { apply String.eqb_neq. intros E. apply Hf. right. now right. }
  induction Hpre as [|x pre Hx _ IH]; cbn [app caller_loop].
  - now rewrite Hn, Ho, Hr.
  - assert (Hm : more_after (pre ++ frame :: post) = true)
      by now destruct pre.
    rewrite Hm. cbn [negb].
    destruct (Function x =? "")%string eqn:Ex; [exact IH|].
    apply String.eqb_neq in Ex.
    destruct Hx as [Hx | [Hx | Hx]]; [contradiction | |].
    + rewrite Hx, String.eqb_refl. exact IH.
    + rewrite Hx. cbn [String.eqb Ascii.eqb Bool.eqb negb andb].
      rewrite andb_false_r. exact IH.
Qed.

Lemma caller_loop_exhausted frames :
  Forall (passed_over our) frames ->
  caller_loop our frames
  = if (Function (last frames zeroFrame) =? "")%string
    then Panic "Was not able to get the function name ran out of frames"
    else Ok Return.
Proof.
  intros H. induction H as [|x rest Hx _ IH]; [reflexivity|].
  cbn [caller_loop].
  destruct rest as [|y rest'].
  - cbn [more_after negb last].
    destruct (Function x =? "")%string eqn:Ex; [reflexivity|].
    apply String.eqb_neq in Ex.
    destruct Hx as [Hx | [Hx | Hx]]; [contradiction | |].
    + now rewrite Hx, String.eqb_refl.
    + rewrite Hx. cbn [String.eqb Ascii.eqb Bool.eqb negb andb].
      now rewrite andb_false_r.
  - cbn [more_after negb].
    change (last (x :: y :: rest') zeroFrame)
      with (last (y :: rest') zeroFrame).
    destruct (Function x =? "")%string eqn:Ex; [exact IH|].
    apply String.eqb_neq in Ex.
    destruct Hx as [Hx | [Hx | Hx]]; [contradiction | |].
    + rewrite Hx, String.eqb_refl. exact IH.
    + rewrite Hx. cbn [String.eqb Ascii.eqb Bool.eqb negb andb].
      rewrite andb_false_r. exact IH.
Qed.

(** A resolver that has recorded a function, or ignores its package,
    skips the frames of that function. *)
Lemma recorded_is_skipped full p c c' frame :
  record_function our full p c = Ok (tt, c') ->
  p <> our -> p <> "runtime" ->
  Function frame = full -> PackageName full = p ->
  skipFrame our c' frame = true.
Proof.
  rewrite record_function_run. intros H Ho Hr Hf Hp.
  apply skipFrame_ignored. unfold ignored. rewrite Hf, Hp.
  destruct (listed full (ignoreFunctions c)) eqn:El.
  { inversion H; subst c'. apply listed_In in El. auto. }
  apply String.eqb_neq in Ho, Hr. rewrite Ho, Hr in H. simpl in H.
  destruct (listed p (ignorePackages c)) eqn:Ep.
  { inversion H; subst c'. apply listed_In in Ep. auto. }
  inversion H. simpl. right. right. right.
  apply in_or_app. right. now left.
Qed.

Lemma record_function_frame full p c c' :
  record_function our full p c = Ok (tt, c') ->
  numFramesToGet c' = numFramesToGet c
  /\ ignorePackages c' = ignorePackages c.
Proof.
  intros H. apply record_function_inv in H as [-> | (_ & _ & ->)];
    split; reflexivity.
Qed.

Lemma record_function_returns full p c :
  exists c', record_function our full p c = Ok (tt, c').
Proof.
  destruct (record_function_twice our full p c) as (c1 & H & _).
  now exists c1.
Qed.

(** [Helper] marks the function that called it: the first fetched frame
    (after the three skipped) that has a function name and is not of the
    package itself or of the runtime.  From then on every frame of that
    function is skipped; the depth and [ignorePackages] are untouched. *)
Theorem Helper_marks_its_caller c st pre frame post :
  getFrames 5 3 st = Ok (pre ++ frame :: post) ->
  Forall (passed_over our) pre -> ~ passed_over our frame ->
  exists c',
    Helper our st c = Ok (tt, c')
    /\ (forall fr, Function fr = Function frame ->
                   skipFrame our c' fr = true)
    /\ numFramesToGet c' = numFramesToGet c
    /\ ignorePackages c' = ignorePackages c.
Proof.
  intros Hg Hpre Hf.
  rewrite Helper_run. unfold calling_function.
  rewrite Hg, (caller_loop_first pre frame post Hpre Hf).
  destruct (record_function_returns (Function frame)
              (PackageName (Function frame)) c) as (c' & Hr).
  exists c'. split; [exact Hr|]. split.
  - intros fr Hfr.
    apply (recorded_is_skipped _ _ _ _ _ Hr); auto.
    + intros E. apply Hf. right. now left.
    + intros E. apply Hf. right. now right.
  - now apply record_function_frame in Hr.
Qed.

(** [IgnoreFunction(name)], for a bare [name], marks the function [name]
    of the package of the function that called it: every frame of
    [package.name] is skipped from then on. *)
Theorem IgnoreFunction_marks_named_function c st pre frame post name :
  getFrames 5 3 st = Ok (pre ++ frame :: post) ->
  Forall (passed_over our) pre -> ~ passed_over our frame ->
  has_byte slash name = false ->
  exists c',
    IgnoreFunction our name st c = Ok (tt, c')
    /\ (forall fr,
           Function fr = (PackageName (Function frame) ++ "." ++ name)%string ->
           skipFrame our c' fr = true)
    /\ numFramesToGet c' = numFramesToGet c
    /\ ignorePackages c' = ignorePackages c.
Proof.
  intros Hg Hpre Hf Hn.
  rewrite IgnoreFunction_run. unfold calling_function.
  rewrite Hg, (caller_loop_first pre frame post Hpre Hf).
  destruct (record_function_returns
              (PackageName (Function frame) ++ "." ++ name)%string
              (PackageName (Function frame)) c) as (c' & Hr).
  exists c'. split; [exact Hr|]. split.
  - intros fr Hfr.
    apply (recorded_is_skipped _ _ _ _ _ Hr); auto.
    + intros E. apply Hf. right. now left.
    + intros E. apply Hf. right. now right.
    + now apply PackageName_qualified.
  - now apply record_function_frame in Hr.
Qed.

(** When every fetched frame is one the walk passes over, [Helper] and
    [IgnoreFunction] give up: they return without a change, or panic when
    the last frame has no function name (also when no frame was fetched). *)
Theorem mutators_without_caller c st frames name :
  getFrames 5 3 st = Ok frames ->
  Forall (passed_over our) frames ->
  (Function (last frames zeroFrame) <> ""%string ->
   Helper our st c = Ok (tt, c)
   /\ IgnoreFunction our name st c = Ok (tt, c))
  /\ (Function (last frames zeroFrame) = ""%string ->
      Helper our st c
      = Panic "Was not able to get the function name ran out of frames"
      /\ IgnoreFunction our name st c
         = Panic "Was not able to get the function name ran out of frames").
Proof.
  intros Hg Hall.
  rewrite Helper_run, IgnoreFunction_run. unfold calling_function.
  rewrite Hg, (caller_loop_exhausted frames Hall).
  split; intros H.
  - apply String.eqb_neq in H. rewrite H. now split.
  - rewrite H. now split.
Qed.

(** ** Which package IgnorePackage resolves *)

Lemma last_is_member {A} (l : list A) (d : A) :
  l <> [] -> In (last l d) l.
Proof.
  induction l as [|x rest IH]; [contradiction|]. intros _.
  destruct rest as [|y rest']; [now left|].
  right. apply IH. discriminate.
Qed.

Lemma IgnorePackage_loop_first pre frame post :
  Forall (package_passed_over our) pre ->
  ~ package_passed_over our frame ->
  IgnorePackage_loop our (pre ++ frame :: post)
  = PackageName (Function frame).
Proof.
  intros Hpre Hf.
  assert (He : (PackageName (Function frame) =? "")%string = false).
  { apply String.eqb_neq. intros E. apply Hf. now left. }
  assert (Ho : (PackageName (Function frame) =? our)%string = false).
  { apply String.eqb_neq. intros E. apply Hf. now right. }
  induction Hpre as [|x pre Hx _ IH]; cbn [app IgnorePackage_loop].
  - now rewrite He, Ho.
  - assert (Hm : more_after (pre ++ frame :: post) = true)
      by now destruct pre.
    rewrite Hm. cbn [negb]. rewrite orb_false_r, andb_true_r.
    destruct (PackageName (Function x) =? "")%string eqn:Ex;
      [exact IH|]. cbn [negb].
    apply String.eqb_neq in Ex.
    destruct Hx as [Hx | Hx]; [contradiction|].
    rewrite Hx, String.eqb_refl. exact IH.
Qed.

Lemma IgnorePackage_loop_exhausted frames :
  Forall (package_passed_over our) frames ->
  IgnorePackage_loop our frames
  = PackageName (Function (last frames zeroFrame)).
Proof.
  intros H. induction H as [|x rest Hx _ IH]; [reflexivity|].
  cbn [IgnorePackage_loop].
  destruct rest as [|y rest'].
  - cbn [more_after negb last]. rewrite orb_true_r, andb_false_r.
    reflexivity.
  - cbn [more_after negb]. rewrite orb_false_r, andb_true_r.
    change (last (x :: y :: rest') zeroFrame)
      with (last (y :: rest') zeroFrame).
    destruct (PackageName (Function x) =? "")%string eqn:Ex;
      [exact IH|]. cbn [negb].
    apply String.eqb_neq in Ex.
    destruct Hx as [Hx | Hx]; [contradiction|].
    rewrite Hx, String.eqb_refl. exact IH.
Qed.

(** [IgnorePackage] marks the package of the function that called it: the
    first fetched frame whose package parses and is not the package
    itself.  Every frame of that package is skipped from then on; the
    depth and [ignoreFunctions] are untouched.  When that package is the
    runtime package, nothing changes. *)
Theorem IgnorePackage_marks_its_package c st pre frame post :
  getFrames 5 3 st = Ok (pre ++ frame :: post) ->
  Forall (package_passed_over our) pre ->
  ~ package_passed_over our frame ->
  exists c',
    IgnorePackage our st c = Ok (tt, c')
    /\ (forall fr,
           PackageName (Function fr) = PackageName (Function frame) ->
           skipFrame our c' fr = true)
    /\ numFramesToGet c' = numFramesToGet c
    /\ ignoreFunctions c' = ignoreFunctions c
    /\ (PackageName (Function frame) = "runtime" -> c' = c).
Proof.
  intros Hg Hpre Hf.
  rewrite IgnorePackage_run. unfold calling_package.
  rewrite Hg, (IgnorePackage_loop_first pre frame post Hpre Hf).
  assert (He : (PackageName (Function frame) =? "")%string = false).
  { apply String.eqb_neq. intros E. apply Hf. now left. }
  assert (Ho : (PackageName (Function frame) =? our)%string = false).
  { apply String.eqb_neq. intros E. apply Hf. now right. }
  rewrite He, Ho. cbn [orb].
  destruct (PackageName (Function frame) =? "runtime")%string eqn:Er.
  - apply String.eqb_eq in Er. exists c. repeat split; auto.
    intros fr Hfr. apply skipFrame_ignored. left. congruence.
  - apply String.eqb_neq in Er. eexists. split; [reflexivity|].
    simpl. repeat split; try contradiction.
    intros fr Hfr. apply skipFrame_ignored. right. right. left.
    simpl. rewrite Hfr. apply in_or_app. right. now left.
Qed.

(** When every fetched frame is one the walk passes over, [IgnorePackage]
    panics if the last frame's package does not parse (also when no frame
    was fetched), and otherwise, having found only the package itself,
    changes nothing. *)
Theorem IgnorePackage_without_package c st frames :
  getFrames 5 3 st = Ok frames ->
  Forall (package_passed_over our) frames ->
  (PackageName (Function (last frames zeroFrame)) = ""%string ->
   IgnorePackage our st c = Panic "Was not able to get the package name")
  /\ (PackageName (Function (last frames zeroFrame)) <> ""%string ->
      IgnorePackage our st c = Ok (tt, c)).
Proof.
  intros Hg Hall.
  rewrite IgnorePackage_run. unfold calling_package.
  rewrite Hg, (IgnorePackage_loop_exhausted frames Hall).
  split; intros H.
  - now rewrite H.
  - assert (Hl : package_passed_over our (last frames zeroFrame)).
    { destruct frames as [|x rest]; [now left|].
      rewrite Forall_forall in Hall. apply Hall.
      apply last_is_member. discriminate. }
    destruct Hl as [Hl | Hl]; [contradiction|].
    apply String.eqb_neq in H. rewrite H, Hl, String.eqb_refl.
    reflexivity.
Qed.

(** ** The ignore lists only grow *)

Lemma skipFrame_extends c c' ps fs frame :
  ignorePackages c' = ignorePackages c ++ ps ->
  ignoreFunctions c' = ignoreFunctions c ++ fs ->
  skipFrame our c frame = true -> skipFrame our c' frame = true.
Proof.
  intros Hp Hf H. apply skipFrame_ignored in H. apply skipFrame_ignored.
  unfold ignored in *. rewrite Hp, Hf.
  destruct H as [H | [H | [H | H]]]; auto using in_or_app.
  - right. right. left. apply in_or_app. now left.
  - right. right. right. apply in_or_app. now left.
Qed.

Lemma ignore_mutators_keep_depth c c' st name :
  Helper our st c = Ok (tt, c')
  \/ IgnoreFunction our name st c = Ok (tt, c')
  \/ IgnorePackage our st c = Ok (tt, c') ->
  numFramesToGet c' = numFramesToGet c.
Proof.
  intros [H | [H | H]].
  - rewrite Helper_run in H.
    destruct (calling_function our st) as [[f p|]|];
      [now apply record_function_frame in H | | discriminate].
    inversion H. now subst.
  - rewrite IgnoreFunction_run in H.
    destruct (calling_function our st) as [[f p|]|];
      [now apply record_function_frame in H | | discriminate].
    inversion H. now subst.
  - rewrite IgnorePackage_run in H.
    destruct (calling_package our st) as [p|]; [|discriminate].
    destruct (p =? "")%string; [discriminate|].
    destruct ((p =? our)%string || (p =? "runtime")%string);
      inversion H; subst c'; reflexivity.
Qed.

Lemma mutators_append c c' st name size :
  Helper our st c = Ok (tt, c')
  \/ IgnoreFunction our name st c = Ok (tt, c')
  \/ IgnorePackage our st c = Ok (tt, c')
  \/ SetNumberOfFramesToGet size c = Ok (tt, c') ->
  exists ps fs,
    ignorePackages c' = ignorePackages c ++ ps
    /\ ignoreFunctions c' = ignoreFunctions c ++ fs
    /\ (List.length ps + List.length fs <= 1)%nat.
Proof.
  intros H.
  assert (Hrec : forall full p,
             record_function our full p c = Ok (tt, c') ->
             exists ps fs,
               ignorePackages c' = ignorePackages c ++ ps
               /\ ignoreFunctions c' = ignoreFunctions c ++ fs
               /\ (List.length ps + List.length fs <= 1)%nat).
  { intros full p Hr.
    apply record_function_inv in Hr as [-> | (_ & _ & ->)].
    - exists [], []. rewrite !app_nil_r. auto.
    - exists [], [full]. simpl. rewrite app_nil_r. auto. }
  destruct H as [H | [H | [H | H]]].
  - rewrite Helper_run in H.
    destruct (calling_function our st) as [[f p|]|];
      [eapply Hrec; exact H | | discriminate].
    inversion H; subst c'. exists [], []. rewrite !app_nil_r. auto.
  - rewrite IgnoreFunction_run in H.
    destruct (calling_function our st) as [[f p|]|];
      [eapply Hrec; exact H | | discriminate].
    inversion H; subst c'. exists [], []. rewrite !app_nil_r. auto.
  - rewrite IgnorePackage_run in H.
    destruct (calling_package our st) as [p|]; [|discriminate].
    destruct (p =? "")%string; [discriminate|].
    destruct ((p =? our)%string || (p =? "runtime")%string);
      inversion H; subst c'.
    + exists [], []. rewrite !app_nil_r. auto.
    + exists [p], []. simpl. rewrite app_nil_r. auto.
  - rewrite SetNumberOfFramesToGet_run in H.
    destruct (size >? DefaultNumberOfFramesToGet); inversion H;
      exists [], []; simpl; rewrite !app_nil_r; auto.
Qed.

(** No call ever removes an entry: each of [Helper], [IgnoreFunction],
    [IgnorePackage] and [SetNumberOfFramesToGet] leaves both lists as they
    were or with one entry appended to one of them, so a frame that was
    skipped before the call is skipped after it; the three ignore methods
    leave the depth alone. *)
Theorem ignore_lists_only_grow c c' st name size :
  Helper our st c = Ok (tt, c')
  \/ IgnoreFunction our name st c = Ok (tt, c')
  \/ IgnorePackage our st c = Ok (tt, c')
  \/ SetNumberOfFramesToGet size c = Ok (tt, c') ->
  (exists ps fs,
      ignorePackages c' = ignorePackages c ++ ps
      /\ ignoreFunctions c' = ignoreFunctions c ++ fs
      /\ (List.length ps + List.length fs <= 1)%nat)
  /\ (forall frame,
         skipFrame our c frame = true -> skipFrame our c' frame = true)
  /\ (Helper our st c = Ok (tt, c')
      \/ IgnoreFunction our name st c = Ok (tt, c')
      \/ IgnorePackage our st c = Ok (tt, c') ->
      numFramesToGet c' = numFramesToGet c).
Proof.
  intros H.
  destruct (mutators_append c c' st name size H)
    as (ps & fs & Hp & Hf & Hl).
  split; [now exists ps, fs|]. split.
  - intros frame. now apply (skipFrame_extends c c' ps fs).
  - apply ignore_mutators_keep_depth.
Qed.

(** ** No function is recorded twice *)

Lemma NoDup_snoc {A} (xs : list A) (x : A) :
  NoDup xs -> ~ In x xs -> NoDup (xs ++ [x]).
Proof.
  intros Hn Hx. induction Hn as [|y ys Hy _ IH]; simpl.
  - constructor; [intros [] | constructor].
  - constructor.
    + intros Hin. apply in_app_or in Hin as [Hin | [<- | []]].
      * contradiction.
      * apply Hx. now left.
    + apply IH. intros Hin. apply Hx. now right.
Qed.

Lemma record_function_fresh full p c c' :
  record_function our full p c = Ok (tt, c') ->
  ignoreFunctions c' = ignoreFunctions c
  \/ (~ In full (ignoreFunctions c)
      /\ ignoreFunctions c' = ignoreFunctions c ++ [full]).
Proof.
  intros H.
  destruct (record_function_twice our full p c) as (c1 & H1 & _ & _ & _ & Hl).
  rewrite H in H1. inversion H1. subst c1. exact Hl.
Qed.

(** [ignoreFunctions] never holds a name twice: every call of the four
    mutators keeps its entries distinct. *)
Theorem ignoreFunctions_stay_distinct c c' st name size :
  NoDup (ignoreFunctions c) ->
  Helper our st c = Ok (tt, c')
  \/ IgnoreFunction our name st c = Ok (tt, c')
  \/ IgnorePackage our st c = Ok (tt, c')
  \/ SetNumberOfFramesToGet size c = Ok (tt, c') ->
  NoDup (ignoreFunctions c').
Proof.
  intros Hn H.
  assert (Hrec : forall full p,
             record_function our full p c = Ok (tt, c') ->
             NoDup (ignoreFunctions c')).
  { intros full p Hr.
    apply record_function_fresh in Hr as [-> | (Hnot & ->)];
      [assumption | now apply NoDup_snoc]. }
  destruct H as [H | [H | [H | H]]].
  - rewrite Helper_run in H.
    destruct (calling_function our st) as [[f p|]|];
      [eapply Hrec; exact H | | discriminate].
    inversion H. now subst.
  - rewrite IgnoreFunction_run in H.
    destruct (calling_function our st) as [[f p|]|];
      [eapply Hrec; exact H | | discriminate].
    inversion H. now subst.
  - rewrite IgnorePackage_run in H.
    destruct (calling_package our st) as [p|]; [|discriminate].
    destruct (p =? "")%string; [discriminate|].
    destruct ((p =? our)%string || (p =? "runtime")%string);
      inversion H; subst c'; assumption.
  - rewrite SetNumberOfFramesToGet_run in H.
    destruct (size >? DefaultNumberOfFramesToGet); inversion H;
      subst c'; assumption.
Qed.

(** ** Where the frame Caller returns comes from *)

Lemma Caller_loop_member c frames :
  frames <> [] -> In (Caller_loop our c frames) frames.
Proof.
  induction frames as [|x rest IH]; [contradiction|]. intros _.
  cbn [Caller_loop].
  destruct (negb (skipFrame our c x) || negb (more_after rest)) eqn:E;
    [now left|].
  right. apply IH. intros ->. simpl in E.
  now rewrite orb_true_r in E.
Qed.

(** With a depth of at most [granted_len - 4], [Caller] returns a frame
    of the window it fetched: of the at most [NumberOfFramesToGet()]
    program counters that follow the four innermost ones.  It never
    returns one of those four, nor a frame beyond the window; only an
    empty window yields the zero frame. *)
Theorem Caller_result_in_window c st num :
  NumberOfFramesToGet c = Ok (num, c) ->
  2 <= num <= granted_len - 4 -> (6 <= List.length st)%nat ->
  exists frame,
    Caller our st c = Ok (frame, c)
    /\ (In frame (CallersFrames (firstn (Z.to_nat num) (skipn 4 st)))
        \/ (CallersFrames (firstn (Z.to_nat num) (skipn 4 st)) = []
            /\ frame = zeroFrame)).
Proof.
  intros Hn Hb Hl. unfold granted_len in Hb.
  rewrite (Caller_run our c st num Hn).
  rewrite getFrames_frames by lia.
  change (Z.to_nat 4) with 4%nat.
  eexists. split; [reflexivity|].
  destruct (CallersFrames (firstn (Z.to_nat num) (skipn 4 st)))
    as [|x rest] eqn:E.
  - right. now split.
  - left. apply Caller_loop_member. discriminate.
Qed.

Lemma concat_singletons {A} (l : list A) :
  List.concat (map (fun x => [x]) l) = l.
Proof. induction l as [|x l IH]; simpl; [reflexivity | now f_equal]. Qed.

(** The depth bounds the search.  With a depth of at most
    [granted_len - 4], on a stack without inlining whose frames beyond the
    four innermost are some ignored ones followed by a frame that is not
    ignored, [Caller] returns that frame when fewer ignored frames precede
    it than the depth; otherwise it returns an ignored frame, the last one
    of the window. *)
Theorem Caller_depth_bounds_search c num d0 d1 d2 d3 pre frame post :
  NumberOfFramesToGet c = Ok (num, c) ->
  2 <= num <= granted_len - 4 ->
  (1 <= List.length pre + List.length post)%nat ->
  Forall (ignored our c) pre -> ~ ignored our c frame ->
  let st :=
    d0 :: d1 :: d2 :: d3 :: map (fun f => [f]) (pre ++ frame :: post) in
  (Z.of_nat (List.length pre) < num -> Caller our st c = Ok (frame, c))
  /\ (num <= Z.of_nat (List.length pre) ->
      exists f,
        Caller our st c = Ok (f, c)
        /\ ignored our c f
        /\ f = last (firstn (Z.to_nat num) pre) zeroFrame).
Proof.
  intros Hn Hb Hlen Hpre Hf st. unfold granted_len in Hb.
  assert (Hg : getFrames num 4 st
               = Ok (firstn (Z.to_nat num) (pre ++ frame :: post))).
  { unfold st. rewrite getFrames_frames; try lia.
    - change (Z.to_nat 4) with 4%nat. cbn [skipn].
      unfold CallersFrames.
      now rewrite firstn_map, concat_singletons.
    - cbn [List.length]. rewrite length_map, List.length_app.
      cbn [List.length]. lia. }
  rewrite (Caller_run our c st num Hn), Hg.
  split; intros H.
  - rewrite firstn_app.
    rewrite (firstn_all2 pre) by lia.
    replace (Z.to_nat num - List.length pre)%nat
      with (S (Z.to_nat num - List.length pre - 1)) by lia.
    cbn [firstn]. now rewrite Caller_loop_first.
  - rewrite firstn_app.
    replace (Z.to_nat num - List.length pre)%nat with 0%nat by lia.
    cbn [firstn]. rewrite app_nil_r.
    assert (Hw : Forall (ignored our c) (firstn (Z.to_nat num) pre)).
    { rewrite Forall_forall in *. intros x Hx. apply Hpre.
      rewrite <- (firstn_skipn (Z.to_nat num) pre).
      apply in_or_app. now left. }
    eexists. split; [now rewrite (Caller_loop_last our c _ Hw)|].
    split; [|reflexivity].
    rewrite Forall_forall in Hw. apply Hw. apply last_is_member.
    destruct pre as [|x pre']; [simpl in H; lia|].
    replace (Z.to_nat num) with (S (Z.to_nat num - 1)) by lia.
    discriminate.
Qed.

(** ** The lists matter only as sets *)

Lemma Caller_loop_ext c c' frames :
  (forall frame, skipFrame our c frame = skipFrame our c' frame) ->
  Caller_loop our c frames = Caller_loop our c' frames.
Proof.
  intros H. induction frames as [|x rest IH]; [reflexivity|].
  cbn [Caller_loop]. now rewrite H, IH.
Qed.

(** Two resolvers with the same depth whose lists have the same members,
    in whatever order and multiplicity, skip the same frames, and [Caller]
    returns the same frame, or panics alike, on every stack. *)
Theorem Caller_depends_on_membership c c' st :
  numFramesToGet c = numFramesToGet c' ->
  (forall x, In x (ignorePackages c) <-> In x (ignorePackages c')) ->
  (forall x, In x (ignoreFunctions c) <-> In x (ignoreFunctions c')) ->
  (forall frame, skipFrame our c frame = skipFrame our c' frame)
  /\ match Caller our st c, Caller our st c' with
     | Ok (frame, _), Ok (frame', _) => frame = frame'
     | Panic msg, Panic msg' => msg = msg'
     | _, _ => False
     end.
Proof.
  intros Hd Hp Hf.
  assert (Hs : forall frame, skipFrame our c frame = skipFrame our c' frame).
  { intros frame.
    destruct (skipFrame our c frame) eqn:E; symmetry.
    - apply skipFrame_ignored in E. apply skipFrame_ignored.
      unfold ignored in *. rewrite <- Hp, <- Hf. exact E.
    - apply skipFrame_not_ignored in E. apply skipFrame_not_ignored.
      unfold ignored in *. rewrite <- Hp, <- Hf. exact E. }
  split; [exact Hs|].
  rewrite (Caller_run our c st _ (NumberOfFramesToGet_run c)).
  rewrite (Caller_run our c' st _ (NumberOfFramesToGet_run c')).
  rewrite Hd.
  destruct (getFrames _ 4 st) as [frames|msg]; [|reflexivity].
  now apply Caller_loop_ext.
Qed.

End MoreResolverFacts.

(** ** Calls from a known context *)

Section CallFacts.

Variable our : string.

(** [c.Caller()] in a function whose callers are first some ignored
    frames, then [frame]. *)
Lemma call_Caller_finds c num top pres frame inl rest :
  NumberOfFramesToGet c = Ok (num, c) ->
  2 <= num <= 2 ^ 45 - 4 ->
  Z.of_nat (List.length pres) < num ->
  (1 <= List.length pres + List.length rest)%nat ->
  Forall (ignored our c) pres -> ~ ignored our c frame ->
  call_Caller our
    (top :: map (fun f => [f]) pres ++ (frame :: inl) :: rest) c
  = Ok (frame, c).
Proof.
  intros Hn Hb Hlt Hlen Hpre Hf.
  unfold call_Caller, at_Callers.
  rewrite (Caller_run our c _ num Hn).
  rewrite getFrames_frames; try lia.
  - change (Z.to_nat 4) with 4%nat. cbn [skipn].
    rewrite firstn_app, length_map.
    rewrite (firstn_all2 (map _ pres)) by (rewrite length_map; lia).
    replace (Z.to_nat num - List.length pres)%nat
      with (S (Z.to_nat num - List.length pres - 1)) by lia.
    cbn [firstn]. unfold CallersFrames.
    rewrite concat_app, concat_singletons. cbn [List.concat].
    cbn [app]. now rewrite Caller_loop_first.
  - cbn [List.length]. rewrite List.length_app, length_map.
    cbn [List.length]. lia.
Qed.

(** [c.Helper()] and [c.IgnoreFunction(name)] in the function [frame]. *)
Lemma call_Helper_records c frame inl pc2 rest :
  ~ passed_over our frame ->
  call_Helper our ((frame :: inl) :: pc2 :: rest) c
  = record_function our (Function frame) (PackageName (Function frame)) c.
Proof.
  intros Hf. unfold call_Helper, at_Callers.
  rewrite Helper_run. unfold calling_function.
  rewrite getFrames_frames; try lia; [|cbn [List.length]; lia].
  change (Z.to_nat 3) with 3%nat. cbn [skipn].
  change (Z.to_nat 5) with 5%nat. cbn [firstn CallersFrames List.concat app].
  match goal with
  | |- context [caller_loop our (frame :: ?p)] =>
      now rewrite (caller_loop_first our [] frame p (Forall_nil _) Hf
                   : caller_loop our (frame :: p) = _)
  end.
Qed.

Lemma call_IgnoreFunction_records c frame inl pc2 rest name :
  ~ passed_over our frame ->
  call_IgnoreFunction our name ((frame :: inl) :: pc2 :: rest) c
  = record_function our
      (PackageName (Function frame) ++ "." ++ name)%string
      (PackageName (Function frame)) c.
Proof.
  intros Hf. unfold call_IgnoreFunction, at_Callers.
  rewrite IgnoreFunction_run. unfold calling_function.
  rewrite getFrames_frames; try lia; [|cbn [List.length]; lia].
  change (Z.to_nat 3) with 3%nat. cbn [skipn].
  change (Z.to_nat 5) with 5%nat. cbn [firstn CallersFrames List.concat app].
  match goal with
  | |- context [caller_loop our (frame :: ?p)] =>
      now rewrite (caller_loop_first our [] frame p (Forall_nil _) Hf
                   : caller_loop our (frame :: p) = _)
  end.
Qed.

(** [c.IgnorePackage()] in the function [frame]. *)
Lemma call_IgnorePackage_resolves frame inl pc2 rest :
  ~ package_passed_over our frame ->
  calling_package our
    (at_Callers our ("(" ++ "*ACaller).IgnorePackage")%string 104
       ((frame :: inl) :: pc2 :: rest))
  = Ok (PackageName (Function frame)).
Proof.
  intros Hf. unfold calling_package, at_Callers.
  rewrite getFrames_frames; try lia; [|cbn [List.length]; lia].
  change (Z.to_nat 3) with 3%nat. cbn [skipn].
  change (Z.to_nat 5) with 5%nat. cbn [firstn CallersFrames List.concat app].
  match goal with
  | |- context [IgnorePackage_loop our (frame :: ?p)] =>
      now rewrite (IgnorePackage_loop_first our [] frame p (Forall_nil _) Hf
                   : IgnorePackage_loop our (frame :: p) = _)
  end.
Qed.

(** A function of the package parses to the package. *)
Lemma library_frame_package fn name line :
  our = PackageName fn -> has_byte slash name = false ->
  PackageName (Function (library_frame our name line)) = our.
Proof.
  intros -> Hn. unfold library_frame. cbn [Function].
  now apply PackageName_qualified.
Qed.

(** ** The package-level functions *)

(** The four innermost frames are never examined.  With a depth of at
    most [granted_len - 4]: called through the package-level [Caller()],
    the walk starts at the function that made the call and returns it when
    it is not ignored; called as a method, the walk starts one frame
    further out, at the caller of the function that called [c.Caller()]. *)
Theorem Caller_skips_four_frames c num x y inl pc1 pc2 rest :
  NumberOfFramesToGet c = Ok (num, c) ->
  2 <= num <= granted_len - 4 ->
  (~ ignored our c x ->
   PackageLevel.Caller our ((x :: inl) :: pc2 :: rest) c = Ok (x, c))
  /\ (~ ignored our c y ->
      call_Caller our (pc1 :: (y :: inl) :: pc2 :: rest) c = Ok (y, c)).
Proof.
  intros Hn Hb. unfold granted_len in Hb. split; intros H.
  - unfold PackageLevel.Caller.
    apply (call_Caller_finds c num _ [] x inl (pc2 :: rest));
      auto; simpl; lia.
  - apply (call_Caller_finds c num pc1 [] y inl (pc2 :: rest));
      auto; simpl; lia.
Qed.

(** The package-level [Helper], [IgnoreFunction] and [IgnorePackage],
    called by a function outside the package, change [defaultCaller]
    exactly as the method of the same name called by that function: the
    frame of the package-level function is walked past. *)
Theorem package_level_mutators_as_methods fn c frame inl pc2 rest name :
  our = PackageName fn ->
  let ctx := (frame :: inl) :: pc2 :: rest in
  (~ passed_over our frame ->
   PackageLevel.Helper our ctx c = call_Helper our ctx c
   /\ PackageLevel.IgnoreFunction our name ctx c
      = call_IgnoreFunction our name ctx c)
  /\ (~ package_passed_over our frame ->
      PackageLevel.IgnorePackage our ctx c = call_IgnorePackage our ctx c).
Proof.
  intros Hp ctx.
  assert (Hlib : forall nm line, has_byte slash nm = false ->
             PackageName (Function (library_frame our nm line)) = our)
    by (intros nm line; now apply (library_frame_package fn)).
  split.
  - intros Hf. unfold ctx. rewrite call_Helper_records by assumption.
    rewrite call_IgnoreFunction_records by assumption.
    unfold PackageLevel.Helper, PackageLevel.IgnoreFunction,
      call_Helper, call_IgnoreFunction, at_Callers.
    rewrite Helper_run, IgnoreFunction_run. unfold calling_function.
    rewrite !getFrames_frames; try lia; try (cbn [List.length]; lia).
    change (Z.to_nat 3) with 3%nat. cbn [skipn].
    change (Z.to_nat 5) with 5%nat.
    cbn [firstn CallersFrames List.concat app].
    assert (Hw : forall nm line p, has_byte slash nm = false ->
               caller_loop our (library_frame our nm line :: frame :: p)
               = Ok (Found frame (PackageName (Function frame)))).
    { intros nm line p Hnm.
      apply (caller_loop_first our [library_frame our nm line] frame p);
        [|assumption].
      constructor; [right; left; now apply Hlib | constructor]. }
    rewrite !Hw by reflexivity. split; reflexivity.
  - intros Hf. unfold ctx.
    unfold PackageLevel.IgnorePackage, call_IgnorePackage.
    rewrite !IgnorePackage_run.
    rewrite (call_IgnorePackage_resolves frame inl pc2 rest Hf).
    unfold calling_package, at_Callers.
    rewrite getFrames_frames; try lia; [|cbn [List.length]; lia].
    change (Z.to_nat 3) with 3%nat. cbn [skipn].
    change (Z.to_nat 5) with 5%nat.
    cbn [firstn CallersFrames List.concat app].
    match goal with
    | |- context [IgnorePackage_loop our (?l :: frame :: ?p)] =>
        assert (E : IgnorePackage_loop our (l :: frame :: p)
                    = PackageName (Function frame))
          by (apply (IgnorePackage_loop_first our [l] frame p);
              [constructor; [right; now apply Hlib | constructor]
              |assumption]);
        rewrite E; reflexivity
    end.
Qed.

End CallFacts.

(** ** Package log *)

Lemma log_frame_package fn line :
  has_byte slash fn = false ->
  PackageName (Function (Log.log_frame fn line)) = log_pkg.
Proof.
  intros H.
  assert (E : PackageName "github.com/gdey/caller/simple/log.x" = log_pkg)
    by (vm_compute; reflexivity).
  unfold Log.log_frame. cbn [Function]. rewrite <- E.
  now apply PackageName_qualified.
Qed.

Lemma log_frame_not_passed_over fn line :
  has_byte slash fn = false ->
  ~ passed_over caller_pkg (Log.log_frame fn line)
  /\ ~ package_passed_over caller_pkg (Log.log_frame fn line).
Proof.
  intros H. unfold passed_over, package_passed_over.
  rewrite (log_frame_package fn line H).
  split.
  - intros [E | [E | E]]; discriminate E.
  - intros [E | E]; discriminate E.
Qed.

Lemma by_value_unchanged {A} (m : M A) c a :
  m c = Ok (a, c) -> by_value m c = Ok (a, c).
Proof. unfold by_value. now intros ->. Qed.

(** [c.notInIgnore()] and [c.Double()] in a function whose frame and
    callers are first some ignored frames, then [frame]. *)
Lemma log_notInIgnore_finds c pres frame inl rest :
  numFramesToGet c = 0 ->
  (List.length pres < 15)%nat ->
  (1 <= List.length pres + List.length rest)%nat ->
  Forall (ignored caller_pkg c) pres -> ~ ignored caller_pkg c frame ->
  Log.notInIgnore (map (fun f => [f]) pres ++ (frame :: inl) :: rest) c
  = Ok (frame, c).
Proof.
  intros Hd Hl Hn Hpre Hf. unfold Log.notInIgnore.
  apply by_value_unchanged.
  apply (call_Caller_finds caller_pkg c 15); try assumption; try lia.
  rewrite NumberOfFramesToGet_run, Hd. reflexivity.
Qed.

Lemma log_Double_finds c pres frame inl rest :
  numFramesToGet c = 0 ->
  In log_pkg (ignorePackages c) ->
  (List.length pres < 14)%nat ->
  Forall (ignored caller_pkg c) pres -> ~ ignored caller_pkg c frame ->
  Log.Double (map (fun f => [f]) pres ++ (frame :: inl) :: rest) c
  = Ok (frame, c).
Proof.
  intros Hd Hin Hl Hpre Hf. unfold Log.Double.
  apply by_value_unchanged.
  apply (log_notInIgnore_finds c
           (Log.log_frame "MyCaller.Double" 14 :: pres) frame inl rest);
    try assumption; simpl; try lia.
  constructor; [|assumption].
  right. right. left. now rewrite log_frame_package.
Qed.

(** [log.Caller] marks itself with [Helper] and returns the frame of the
    function that called it, for every caller that is neither of the
    runtime nor of package [caller] (nor [log.Caller] itself); its
    resolver ends with [log.Caller] as the one ignored function. *)
Theorem log_Caller_returns_its_caller frame inl rest :
  PackageName (Function frame) <> "runtime" ->
  PackageName (Function frame) <> caller_pkg ->
  Function frame <> (log_pkg ++ ".Caller")%string ->
  Log.Caller ((frame :: inl) :: rest)
  = Ok (frame, mkACaller 0 [] [(log_pkg ++ ".Caller")%string]).
Proof.
  intros Hr Ho Hn. unfold Log.Caller, bind.
  rewrite (call_Helper_records caller_pkg zeroACaller
             (Log.log_frame "Caller" 18) [] (frame :: inl) rest)
    by (now apply log_frame_not_passed_over).
  rewrite (log_frame_package "Caller" 18 eq_refl).
  change (record_function caller_pkg
            (Function (Log.log_frame "Caller" 18)) log_pkg zeroACaller)
    with (@Ok (unit * ACaller)
            (tt, mkACaller 0 [] [(log_pkg ++ ".Caller")%string])).
  apply (log_notInIgnore_finds _ [Log.log_frame "Caller" 19] frame inl rest);
    [reflexivity | simpl; lia | simpl; lia | |].
  - constructor; [|constructor]. right. right. right. now left.
  - intros [E | [E | [[] | [E | []]]]]; auto.
Qed.

(** [log.NotInIgnore] ignores nothing, so the frame [Caller] returns is
    that of [log.NotInIgnore] itself, the first one after the four
    skipped, whoever called it. *)
Theorem log_NotInIgnore_returns_itself pc rest :
  Log.NotInIgnore (pc :: rest)
  = Ok (Log.log_frame "NotInIgnore" 24, zeroACaller).
Proof.
  unfold Log.NotInIgnore.
  apply (log_notInIgnore_finds zeroACaller []
           (Log.log_frame "NotInIgnore" 24) [] (pc :: rest));
    [reflexivity | simpl; lia | simpl; lia | constructor |].
  unfold ignored. rewrite (log_frame_package "NotInIgnore" 24 eq_refl).
  intros [E | [E | [[] | []]]]; discriminate E.
Qed.

Lemma log_IgnorePackage_appends fn line pc2 rest c :
  has_byte slash fn = false ->
  call_IgnorePackage caller_pkg ([Log.log_frame fn line] :: pc2 :: rest) c
  = Ok (tt, mkACaller (numFramesToGet c) (ignorePackages c ++ [log_pkg])
                      (ignoreFunctions c)).
Proof.
  intros H. unfold call_IgnorePackage. rewrite IgnorePackage_run.
  rewrite (call_IgnorePackage_resolves caller_pkg
             (Log.log_frame fn line) [] pc2 rest)
    by (now apply log_frame_not_passed_over).
  now rewrite (log_frame_package fn line H).
Qed.

(** [log.Package], [log.PackageHelper] and [log.HelperPackage] return the
    frame of the function that called them, for every caller outside the
    runtime and the packages [caller] and [log].  [Helper] after
    [IgnorePackage] records nothing; [Helper] before it leaves its entry,
    which [IgnorePackage] does not remove. *)
Theorem log_package_functions_return_caller frame inl rest :
  PackageName (Function frame) <> "runtime" ->
  PackageName (Function frame) <> caller_pkg ->
  PackageName (Function frame) <> log_pkg ->
  Log.Package ((frame :: inl) :: rest)
  = Ok (frame, mkACaller 0 [log_pkg] [])
  /\ Log.PackageHelper ((frame :: inl) :: rest)
     = Ok (frame, mkACaller 0 [log_pkg] [])
  /\ Log.HelperPackage ((frame :: inl) :: rest)
     = Ok (frame,
           mkACaller 0 [log_pkg] [(log_pkg ++ ".HelperPackage")%string]).
Proof.
  intros Hr Ho Hl.
  assert (Hfind : forall fn line fs,
             has_byte slash fn = false ->
             (forall x, In x fs -> PackageName x = log_pkg) ->
             Log.Double ([Log.log_frame fn line] :: (frame :: inl) :: rest)
               (mkACaller 0 [log_pkg] fs)
             = Ok (frame, mkACaller 0 [log_pkg] fs)).
  { intros fn line fs Hfn Hfs.
    apply (log_Double_finds _ [Log.log_frame fn line] frame inl rest);
      [reflexivity | now left | simpl; lia | |].
    - constructor; [|constructor].
      right. right. left. rewrite log_frame_package by assumption.
      now left.
    - intros [E | [E | [[E | []] | E]]]; auto. }
  split; [|split].
  - unfold Log.Package, bind.
    rewrite (log_IgnorePackage_appends "Package" 29 _ rest zeroACaller
               eq_refl).
    apply (Hfind "Package" 30 []); [reflexivity | intros x []].
  - unfold Log.PackageHelper, bind.
    rewrite (log_IgnorePackage_appends "PackageHelper" 35 _ rest
               zeroACaller eq_refl).
    rewrite (call_Helper_records caller_pkg _
               (Log.log_frame "PackageHelper" 38) [] (frame :: inl) rest)
      by (now apply log_frame_not_passed_over).
    rewrite (log_frame_package "PackageHelper" 38 eq_refl).
    rewrite record_function_subsumed by (simpl; now left).
    apply (Hfind "PackageHelper" 39 []); [reflexivity | intros x []].
  - unfold Log.HelperPackage, bind.
    rewrite (call_Helper_records caller_pkg _
               (Log.log_frame "HelperPackage" 45) [] (frame :: inl) rest)
      by (now apply log_frame_not_passed_over).
    rewrite (log_frame_package "HelperPackage" 45 eq_refl).
    change (record_function caller_pkg
              (Function (Log.log_frame "HelperPackage" 45)) log_pkg
              zeroACaller)
      with (@Ok (unit * ACaller)
              (tt, mkACaller 0 []
                     [(log_pkg ++ ".HelperPackage")%string])).
    cbv beta iota.
    rewrite (log_IgnorePackage_appends "HelperPackage" 51 _ rest _ eq_refl).
    apply (Hfind "HelperPackage" 52
             [(log_pkg ++ ".HelperPackage")%string]);
      [reflexivity|].
    intros x [<- | []]. reflexivity.
Qed.


(** ** The example of the README *)

Lemma example_log_finds c pres frame inl rest :
  numFramesToGet c = 0 ->
  (List.length pres < 15)%nat ->
  (1 <= List.length pres + List.length rest)%nat ->
  Forall (fun f => skipFrame caller_pkg c f = true) pres ->
  skipFrame caller_pkg c frame = false ->
  Example.log (map (fun f => [f]) pres ++ (frame :: inl) :: rest) c
  = Ok (frame, c).
Proof.
  intros Hd Hl Hn Hpre Hf. unfold Example.log.
  apply by_value_unchanged.
  apply (call_Caller_finds caller_pkg c 15); try assumption; try lia.
  - rewrite NumberOfFramesToGet_run, Hd. reflexivity.
  - rewrite Forall_forall in *. intros x Hx.
    now apply skipFrame_ignored, Hpre.
  - now apply skipFrame_not_ignored.
Qed.

Lemma example_Info_finds c pres frame inl rest :
  numFramesToGet c = 0 ->
  (List.length pres < 14)%nat ->
  skipFrame caller_pkg c (Example.example_frame "Log.Info" 49) = true ->
  Forall (fun f => skipFrame caller_pkg c f = true) pres ->
  skipFrame caller_pkg c frame = false ->
  Example.Info (map (fun f => [f]) pres ++ (frame :: inl) :: rest) c
  = Ok (frame, c).
Proof.
  intros Hd Hl Hi Hpre Hf. unfold Example.Info.
  apply by_value_unchanged.
  apply (example_log_finds c
           (Example.example_frame "Log.Info" 49 :: pres) frame inl rest);
    try assumption; simpl; try lia.
  now constructor.
Qed.

Lemma example_frame_not_passed_over fn line :
  has_byte slash fn = false ->
  ~ passed_over caller_pkg (Example.example_frame fn line)
  /\ PackageName (Function (Example.example_frame fn line))
     = Example.test_pkg.
Proof.
  intros H.
  assert (E : PackageName "github.com/gdey/caller_test.x"
              = Example.test_pkg) by (vm_compute; reflexivity).
  assert (Hp : PackageName (Function (Example.example_frame fn line))
               = Example.test_pkg).
  { unfold Example.example_frame. cbn [Function]. rewrite <- E.
    now apply PackageName_qualified. }
  split; [|exact Hp].
  unfold passed_over. rewrite Hp.
  intros [E1 | [E1 | E1]]; discriminate E1.
Qed.

Lemma by_value_discards {A} (m : M A) c a c' :
  m c = Ok (a, c') -> by_value m c = Ok (a, c).
Proof. unfold by_value. now intros ->. Qed.

(** Records a function on a resolver whose fields are known. *)
Ltac run_record :=
  match goal with
  | |- context [record_function ?o ?f ?p ?c] =>
      let r := eval vm_compute in (record_function o f p c) in
      replace (record_function o f p c) with r
        by (vm_compute; reflexivity);
      cbv beta iota
  end.

(** The example prints what its expected output says: whatever runs
    [ExampleCaller], the frames behind its three messages are those of
    [ExampleCaller] itself at lines 59, 60 and 61, and [l] ends with the
    three names given to [IgnoreFunction]; the entry [FatalInfo] makes with
    [Helper] stays in its own copy. *)
Theorem ExampleCaller_reports_its_own_lines pc rest :
  Example.ExampleCaller (pc :: rest)
  = Ok ([Example.example_frame "ExampleCaller" 59;
         Example.example_frame "ExampleCaller" 60;
         Example.example_frame "ExampleCaller" 61],
        mkACaller 0 []
          ["github.com/gdey/caller_test.Log.Info"%string;
           "github.com/gdey/caller_test.Log.log"%string;
           "github.com/gdey/caller_test.DoubleMessageInfo"%string]).
Proof.
  unfold Example.ExampleCaller, Example.Init, bind.
  assert (Hrec : forall fn line name p2 tl c,
             has_byte slash fn = false ->
             call_IgnoreFunction caller_pkg name
               ([Example.example_frame fn line] :: p2 :: tl) c
             = record_function caller_pkg
                 (Example.test_pkg ++ "." ++ name)%string
                 Example.test_pkg c).
  { intros fn line name p2 tl c Hfn.
    destruct (example_frame_not_passed_over fn line Hfn) as [Hn Hp].
    rewrite (call_IgnoreFunction_records caller_pkg c
               (Example.example_frame fn line) [] p2 tl name Hn).
    now rewrite Hp. }
  rewrite (Hrec ("(" ++ "*Log).Init")%string 16 "Log.Info"%string
             _ _ _ eq_refl).
  run_record.
  rewrite (Hrec ("(" ++ "*Log).Init")%string 17 "Log.log"%string
             _ _ _ eq_refl).
  run_record.
  rewrite (Hrec "ExampleCaller"%string 58 "DoubleMessageInfo"%string
             _ _ _ eq_refl).
  run_record.
  rewrite (example_Info_finds _ []
             (Example.example_frame "ExampleCaller" 59) [] (pc :: rest));
    [|reflexivity | simpl; lia | vm_compute; reflexivity | constructor
     |vm_compute; reflexivity].
  unfold Example.DoubleMessageInfo at 1.
  rewrite (by_value_unchanged _ _ (Example.example_frame "ExampleCaller" 60));
    [|apply (example_Info_finds _
               [Example.example_frame "DoubleMessageInfo" 43]
               (Example.example_frame "ExampleCaller" 60) [] (pc :: rest));
      [reflexivity | simpl; lia | vm_compute; reflexivity
      |constructor; [vm_compute; reflexivity | constructor]
      |vm_compute; reflexivity]].
  unfold Example.FatalInfo at 1.
  rewrite (by_value_discards _ _
             (Example.example_frame "ExampleCaller" 61)
             (mkACaller 0 []
                ["github.com/gdey/caller_test.Log.Info"%string;
                 "github.com/gdey/caller_test.Log.log"%string;
                 "github.com/gdey/caller_test.DoubleMessageInfo"%string;
                 "github.com/gdey/caller_test.FatalInfo"%string]));
    [reflexivity|].
  unfold bind.
  destruct (example_frame_not_passed_over "FatalInfo" 35 eq_refl)
    as [Hn Hp].
  rewrite (call_Helper_records caller_pkg _
             (Example.example_frame "FatalInfo" 35) []
             [Example.example_frame "ExampleCaller" 61] (pc :: rest) Hn).
  rewrite Hp. run_record.
  apply (example_Info_finds _ [Example.example_frame "FatalInfo" 36]
           (Example.example_frame "ExampleCaller" 61) [] (pc :: rest));
    [reflexivity | simpl; lia | vm_compute; reflexivity
    |constructor; [vm_compute; reflexivity | constructor]
    |vm_compute; reflexivity].
Qed.

(** ** Qualifying and parsing *)

(** A parsed package qualified with a bare name parses back to that
    package, and a parsed package itself has no package part. *)
Theorem PackageName_qualify_roundtrip fn name :
  has_byte slash name = false ->
  PackageName (PackageName fn ++ "." ++ name)%string = PackageName fn
  /\ PackageName (PackageName fn) = ""%string.
Proof.
  intros Hn. split; [now apply PackageName_qualified|].
  destruct (name_shape_total fn)
    as [pre mid post -> Hsm Hdm Hsp | mid post -> Hsm Hdm Hsp
       | pre tail -> Hs Hd | Hs Hd].
  - change (pre ++ "/" ++ mid ++ "." ++ post)%string
      with (pre ++ String slash (mid ++ String dot post))%string.
    rewrite (PackageName_path pre mid post Hsm Hdm Hsp).
    now apply PackageName_path_nodot.
  - change (mid ++ "." ++ post)%string with (mid ++ String dot post)%string.
    rewrite (PackageName_flat mid post Hsm Hdm Hsp).
    now apply PackageName_flat_nodot.
  - change (pre ++ "/" ++ tail)%string with (pre ++ String slash tail)%string.
    rewrite (PackageName_path_nodot pre tail Hs Hd). reflexivity.
  - rewrite (PackageName_flat_nodot fn Hs Hd). reflexivity.
Qed.

Lemma PackageName_qualify_roundtrip_witness :
  PackageName (PackageName "github.com/gdey/caller_test.Log.Info"
               ++ "." ++ "Log.log")%string
  = PackageName "github.com/gdey/caller_test.Log.Info".
Proof.
  exact (proj1 (PackageName_qualify_roundtrip
                  "github.com/gdey/caller_test.Log.Info" "Log.log"
                  eq_refl)).
Defined.

(** ** The further properties on the sample stacks *)

Ltac by_computing :=
  let E := fresh "E" in
  intros E; repeat (destruct E as [E | E]);
  try (vm_compute in E; discriminate E); try contradiction.

Lemma log_stack_frames method :
  getFrames 5 3 (log_stack method)
  = Ok ([] ++ log_Package_frame
           :: CallersFrames (pc_slice (log_stack method) 4 7)).
Proof. reflexivity. Qed.

Lemma Helper_marks_its_caller_witness :
  exists c',
    Helper caller_pkg (log_stack "Helper") zeroACaller = Ok (tt, c')
    /\ skipFrame caller_pkg c'
         (mkFrame "github.com/gdey/caller/simple/log.Package" "log.go" 30)
       = true.
Proof.
  assert (Hf : ~ passed_over caller_pkg log_Package_frame)
    by (unfold passed_over; by_computing).
  destruct (Helper_marks_its_caller caller_pkg zeroACaller
              (log_stack "Helper") [] log_Package_frame _
              (log_stack_frames "Helper") (Forall_nil _) Hf)
    as (c' & H1 & H2 & _).
  exists c'. split; [exact H1 | apply H2; reflexivity].
Defined.

Lemma IgnoreFunction_marks_named_function_witness :
  exists c',
    IgnoreFunction caller_pkg "MyCaller.Double" (log_stack "IgnoreFunction")
      zeroACaller = Ok (tt, c')
    /\ skipFrame caller_pkg c'
         (mkFrame "github.com/gdey/caller/simple/log.MyCaller.Double"
            "log.go" 14)
       = true.
Proof.
  assert (Hf : ~ passed_over caller_pkg log_Package_frame)
    by (unfold passed_over; by_computing).
  assert (Hp : PackageName (Function log_Package_frame) = log_pkg)
    by (vm_compute; reflexivity).
  destruct (IgnoreFunction_marks_named_function caller_pkg zeroACaller
              (log_stack "IgnoreFunction") [] log_Package_frame _
              "MyCaller.Double" (log_stack_frames "IgnoreFunction")
              (Forall_nil _) Hf eq_refl)
    as (c' & H1 & H2 & _).
  exists c'. split; [exact H1 | apply H2; rewrite Hp; reflexivity].
Defined.

Lemma bottom_stack_frames fn :
  getFrames 5 3 (bottom_stack fn)
  = Ok [mkFrame ("github.com/gdey/caller." ++ fn)%string "" 0;
        mkFrame "runtime.goexit" "" 0].
Proof. reflexivity. Qed.

Lemma mutators_without_caller_witness :
  Helper caller_pkg (bottom_stack "Helper") zeroACaller
  = Ok (tt, zeroACaller).
Proof.
  assert (Hall : Forall (passed_over caller_pkg)
                   [mkFrame "github.com/gdey/caller.Helper" "" 0;
                    mkFrame "runtime.goexit" "" 0]).
  { constructor; [right; left; vm_compute; reflexivity|].
    constructor; [right; right; vm_compute; reflexivity | constructor]. }
  exact (proj1 (proj1 (mutators_without_caller caller_pkg zeroACaller
                         (bottom_stack "Helper") _ "x"
                         (bottom_stack_frames "Helper") Hall)
                  ltac:(discriminate))).
Defined.

Lemma IgnorePackage_marks_its_package_witness :
  exists c',
    IgnorePackage caller_pkg (log_stack "IgnorePackage") zeroACaller
    = Ok (tt, c')
    /\ skipFrame caller_pkg c'
         (mkFrame "github.com/gdey/caller/simple/log.MyCaller.Double"
            "log.go" 14)
       = true.
Proof.
  assert (Hf : ~ package_passed_over caller_pkg log_Package_frame)
    by (unfold package_passed_over; by_computing).
  destruct (IgnorePackage_marks_its_package caller_pkg zeroACaller
              (log_stack "IgnorePackage") [] log_Package_frame _
              (log_stack_frames "IgnorePackage") (Forall_nil _) Hf)
    as (c' & H1 & H2 & _).
  exists c'. split; [exact H1 | apply H2; vm_compute; reflexivity].
Defined.

Lemma unnamed_stack_frames fn :
  getFrames 5 3 (unnamed_stack fn)
  = Ok [mkFrame ("github.com/gdey/caller." ++ fn)%string "" 0;
        mkFrame "" "" 0].
Proof. reflexivity. Qed.

Lemma IgnorePackage_without_package_witness :
  IgnorePackage caller_pkg (unnamed_stack "IgnorePackage") zeroACaller
  = Panic "Was not able to get the package name".
Proof.
  assert (Hall : Forall (package_passed_over caller_pkg)
                   [mkFrame "github.com/gdey/caller.IgnorePackage" "" 0;
                    mkFrame "" "" 0]).
  { constructor; [right; vm_compute; reflexivity|].
    constructor; [left; vm_compute; reflexivity | constructor]. }
  exact (proj1 (IgnorePackage_without_package caller_pkg zeroACaller
                  (unnamed_stack "IgnorePackage") _
                  (unnamed_stack_frames "IgnorePackage") Hall)
           eq_refl).
Defined.

Lemma ignore_lists_only_grow_witness :
  exists ps fs,
    ignorePackages
      (mkACaller 0 [] ["github.com/gdey/caller/simple/log.Package"%string])
    = ignorePackages zeroACaller ++ ps
    /\ ignoreFunctions
         (mkACaller 0 []
            ["github.com/gdey/caller/simple/log.Package"%string])
       = ignoreFunctions zeroACaller ++ fs
    /\ (List.length ps + List.length fs <= 1)%nat.
Proof.
  assert (H : Helper caller_pkg (log_stack "Helper") zeroACaller
              = Ok (tt, mkACaller 0 []
                          ["github.com/gdey/caller/simple/log.Package"
                           %string]))
    by (vm_compute; reflexivity).
  exact (proj1 (ignore_lists_only_grow caller_pkg zeroACaller _
                  (log_stack "Helper") "x" 0 (or_introl H))).
Defined.

Lemma ignoreFunctions_stay_distinct_witness :
  NoDup (ignoreFunctions
           (mkACaller 0 []
              ["github.com/gdey/caller/simple/log.Package"%string])).
Proof.
  assert (H : Helper caller_pkg (log_stack "Helper") zeroACaller
              = Ok (tt, mkACaller 0 []
                          ["github.com/gdey/caller/simple/log.Package"
                           %string]))
    by (vm_compute; reflexivity).
  exact (ignoreFunctions_stay_distinct caller_pkg zeroACaller _
           (log_stack "Helper") "x" 0 (NoDup_nil _) (or_introl H)).
Defined.

Lemma Caller_result_in_window_witness :
  exists frame,
    Caller caller_pkg test_stack zeroACaller = Ok (frame, zeroACaller)
    /\ (In frame
          (CallersFrames (firstn (Z.to_nat 15) (skipn 4 test_stack)))
        \/ (CallersFrames (firstn (Z.to_nat 15) (skipn 4 test_stack)) = []
            /\ frame = zeroFrame)).
Proof.
  apply (Caller_result_in_window caller_pkg zeroACaller test_stack 15);
    [reflexivity | unfold granted_len; lia | simpl; lia].
Defined.

Lemma Caller_depth_bounds_search_witness :
  Caller caller_pkg
    ([] :: [] :: [] :: []
        :: map (fun f => [f]) ([log_Package_frame] ++ test_frame :: []))
    (mkACaller 0 [log_pkg] [])
  = Ok (test_frame, mkACaller 0 [log_pkg] []).
Proof.
  assert (Hi : Forall (ignored caller_pkg (mkACaller 0 [log_pkg] []))
                 [log_Package_frame]).
  { constructor; [|constructor].
    apply skipFrame_ignored. vm_compute. reflexivity. }
  assert (Hn : ~ ignored caller_pkg (mkACaller 0 [log_pkg] []) test_frame).
  { apply skipFrame_not_ignored. vm_compute. reflexivity. }
  apply (proj1 (Caller_depth_bounds_search caller_pkg
                  (mkACaller 0 [log_pkg] []) 15 [] [] [] []
                  [log_Package_frame] test_frame []
                  eq_refl ltac:(unfold granted_len; lia)
                  ltac:(simpl; lia) Hi Hn)).
  simpl. lia.
Defined.

Lemma Caller_depends_on_membership_witness :
  skipFrame caller_pkg (mkACaller 0 [log_pkg; log_pkg] []) log_Package_frame
  = skipFrame caller_pkg (mkACaller 0 [log_pkg] []) log_Package_frame.
Proof.
  assert (Hp : forall x,
             In x (ignorePackages (mkACaller 0 [log_pkg; log_pkg] []))
             <-> In x (ignorePackages (mkACaller 0 [log_pkg] [])))
    by (intros x; simpl; tauto).
  assert (Hf : forall x,
             In x (ignoreFunctions (mkACaller 0 [log_pkg; log_pkg] []))
             <-> In x (ignoreFunctions (mkACaller 0 [log_pkg] [])))
    by (intros x; simpl; tauto).
  exact (proj1 (Caller_depends_on_membership caller_pkg
                  (mkACaller 0 [log_pkg; log_pkg] [])
                  (mkACaller 0 [log_pkg] []) test_stack eq_refl Hp Hf)
           log_Package_frame).
Defined.

Lemma Caller_skips_four_frames_witness :
  PackageLevel.Caller caller_pkg
    ([test_frame] :: stack_of ["testing.tRunner"; "runtime.goexit"])
    zeroACaller
  = Ok (test_frame, zeroACaller).
Proof.
  assert (Hn : ~ ignored caller_pkg zeroACaller test_frame).
  { apply skipFrame_not_ignored. vm_compute. reflexivity. }
  exact (proj1 (Caller_skips_four_frames caller_pkg zeroACaller 15
                  test_frame test_frame [] []
                  [mkFrame "testing.tRunner" "" 0]
                  (stack_of ["runtime.goexit"])
                  eq_refl ltac:(unfold granted_len; lia)) Hn).
Defined.

Lemma package_level_mutators_as_methods_witness :
  PackageLevel.Helper caller_pkg
    ([test_frame] :: stack_of ["testing.tRunner"; "runtime.goexit"])
    zeroACaller
  = call_Helper caller_pkg
      ([test_frame] :: stack_of ["testing.tRunner"; "runtime.goexit"])
      zeroACaller.
Proof.
  assert (Hp : caller_pkg = PackageName "github.com/gdey/caller.Helper")
    by (vm_compute; reflexivity).
  assert (Hf : ~ passed_over caller_pkg test_frame)
    by (unfold passed_over; by_computing).
  exact (proj1 (proj1 (package_level_mutators_as_methods caller_pkg
                         "github.com/gdey/caller.Helper" zeroACaller
                         test_frame [] [mkFrame "testing.tRunner" "" 0]
                         (stack_of ["runtime.goexit"]) "x" Hp) Hf)).
Defined.

Lemma log_Caller_returns_its_caller_witness :
  Log.Caller
    ([test_frame] :: stack_of ["testing.tRunner"; "runtime.goexit"])
  = Ok (test_frame, mkACaller 0 [] [(log_pkg ++ ".Caller")%string]).
Proof.
  apply log_Caller_returns_its_caller;
    intros E; vm_compute in E; discriminate E.
Defined.

Lemma log_package_functions_return_caller_witness :
  Log.PackageHelper
    ([test_frame] :: stack_of ["testing.tRunner"; "runtime.goexit"])
  = Ok (test_frame, mkACaller 0 [log_pkg] []).
Proof.
  apply (log_package_functions_return_caller test_frame []
           (stack_of ["testing.tRunner"; "runtime.goexit"]));
    intros E; vm_compute in E; discriminate E.
Defined.
